(** * Recipe manager CLI: the command handlers of [index.js]

    The handlers of [index.js] are embedded as programs of a small
    trace/state/exception monad.  The recipe model ([recipe-basics.js]),
    the store and query wrappers ([cli/command-wrapper.js]) and the prompts
    ([cli/prompts.js]) are collaborators of [index.js]; each of them is
    modelled from the specification and marked as such. *)

From Stdlib Require Import Ascii.
From stdpp Require Import base list numbers strings pretty.

Local Open Scope Z_scope.

(** ** JavaScript numbers, as far as the handlers use them

    yargs converts a positional of [type: 'number'] with [Number(..)]: the
    handlers see an integer or [NaN].  Fractions are left out. *)

Inductive jsnum : Type :=
  | JInt (z : Z)
  | JNaN.

Global Instance jsnum_eq_dec : EqDecision jsnum.
Proof. solve_decision. Defined.

(** [if (x)] on a number: [0] and [NaN] are falsy. *)
Definition js_truthy (x : jsnum) : bool :=
  match x with
  | JInt z => negb (z =? 0)
  | JNaN => false
  end.

Definition js_sub (x y : jsnum) : jsnum :=
  match x, y with
  | JInt a, JInt b => JInt (a - b)
  | _, _ => JNaN
  end.

Definition js_add (x y : jsnum) : jsnum :=
  match x, y with
  | JInt a, JInt b => JInt (a + b)
  | _, _ => JNaN
  end.

(** Comparisons with [NaN] are all false. *)
Definition js_lt (x y : jsnum) : bool :=
  match x, y with
  | JInt a, JInt b => a <? b
  | _, _ => false
  end.

Definition js_le (x y : jsnum) : bool :=
  match x, y with
  | JInt a, JInt b => a <=? b
  | _, _ => false
  end.

Definition js_ge (x y : jsnum) : bool := js_le y x.

(** Template-literal interpolation of a number: the decimal digits.  This
    is what JavaScript prints for the safe integers (see [safe_integer]);
    a number of magnitude 1e21 or more is printed in exponent form, which
    is not modelled. *)
Definition js_show (x : jsnum) : string :=
  match x with
  | JInt z => pretty z
  | JNaN => "NaN"
  end.

(** ** Data model *)

Record Ingredient : Type := mkIngredient {
  ing_name : string;
  amount : Z;
  unit : string
}.

Record Recipe : Type := mkRecipe {
  id : Z;
  name : string;
  cookingTime : Z;
  servings : Z;
  ingredients : list Ingredient;
  steps : list string
}.

Global Instance Ingredient_eq_dec : EqDecision Ingredient.
Proof. solve_decision. Defined.

Global Instance Recipe_eq_dec : EqDecision Recipe.
Proof. solve_decision. Defined.

Definition with_id (r : Recipe) (i : Z) : Recipe :=
  {| id := i; name := name r; cookingTime := cookingTime r;
     servings := servings r; ingredients := ingredients r; steps := steps r |}.

Definition with_ingredients (r : Recipe) (l : list Ingredient) : Recipe :=
  {| id := id r; name := name r; cookingTime := cookingTime r;
     servings := servings r; ingredients := l; steps := steps r |}.

Definition with_steps (r : Recipe) (l : list string) : Recipe :=
  {| id := id r; name := name r; cookingTime := cookingTime r;
     servings := servings r; ingredients := ingredients r; steps := l |}.

(** [recipe.steps.length] *)
Definition stepCount (r : Recipe) : Z := Z.of_nat (length (steps r)).

(** ** Errors *)

Inductive Exn : Type :=
  | ValidationError
  | NotFoundError
  | IndexError
  | ExecError (message : string).

Global Instance Exn_eq_dec : EqDecision Exn.
Proof. solve_decision. Defined.

(** ** Recipe model *)

Module Model.

(** Modelled from the spec: [createRecipe] of [recipe-basics.js], which is
    not among the sources.  Empty [ingredients] and [steps], the fields
    verbatim; [ValidationError] on an empty name, a cooking time that is
    not a non-negative number, servings that are not strictly positive.
    The record carries the placeholder id [0] until the store assigns one. *)
Definition createRecipe (nm : string) (ct sv : jsnum) : Exn + Recipe :=
  match ct, sv with
  | JInt c, JInt s =>
      if bool_decide (nm = EmptyString) then inl ValidationError
      else if c <? 0 then inl ValidationError
      else if s <=? 0 then inl ValidationError
      else inr {| id := 0; name := nm; cookingTime := c; servings := s;
                  ingredients := []; steps := [] |}
  | _, _ => inl ValidationError
  end.

(** Modelled from the spec: [addIngredient] of [recipe-basics.js].  Appends
    an entry; [ValidationError] on an empty name or a non-numeric amount. *)
Definition addIngredient (r : Recipe) (nm : string) (amt : jsnum) (u : string)
  : Exn + Recipe :=
  match amt with
  | JInt a =>
      if bool_decide (nm = EmptyString) then inl ValidationError
      else inr (with_ingredients r (ingredients r ++ [mkIngredient nm a u]))
  | JNaN => inl ValidationError
  end.

(** Modelled from the spec: [addStep] of [recipe-basics.js].  Appends the
    instruction; [ValidationError] on an empty instruction. *)
Definition addStep (r : Recipe) (instruction : string) : Exn + Recipe :=
  if bool_decide (instruction = EmptyString) then inl ValidationError
  else inr (with_steps r (steps r ++ [instruction])).

(** Modelled from the spec: [removeStep] of [recipe-basics.js].  Removes the
    element at the zero-based index, later elements shift down; an index
    outside [0, length) is an [IndexError], never a clamp. *)
Definition removeStep (r : Recipe) (index : jsnum) : Exn + Recipe :=
  match index with
  | JInt i =>
      if (0 <=? i) && (i <? stepCount r)
      then inr (with_steps r (delete (Z.to_nat i) (steps r)))
      else inl IndexError
  | JNaN => inl IndexError
  end.

End Model.

(** ** Recipe store *)

(** The persisted collection, in store order. *)
Abbreviation Store := (list Recipe).

Module RecipeStore.

Definition ids (st : Store) : list Z := id <$> st.

(** Modelled from the spec: the id scheme of the store's [create]:
    the largest existing id plus one, or [1] for an empty collection. *)
Definition nextId (st : Store) : Z :=
  match ids st with
  | [] => 1
  | i :: rest => foldr Z.max i rest + 1
  end.

(** Modelled from the spec: [list]. *)
Definition listAll (st : Store) : list Recipe := st.

(** Modelled from the spec: [getById]; absent is [None], not an error.
    No stored id equals [NaN]. *)
Definition getById (st : Store) (i : jsnum) : option Recipe :=
  match i with
  | JInt z => List.find (fun r => id r =? z) st
  | JNaN => None
  end.

(** Modelled from the spec: [create] assigns the fresh id and appends;
    the result is the new collection and the recipe with its id. *)
Definition create (st : Store) (r : Recipe) : Store * Recipe :=
  let r' := with_id r (nextId st) in (st ++ [r'], r').

(** Modelled from the spec: [update] overwrites the record with the id of
    the given recipe; [NotFoundError] when there is none. *)
Definition update (st : Store) (r : Recipe) : Exn + Store :=
  match getById st (JInt (id r)) with
  | None => inl NotFoundError
  | Some _ => inr ((fun x => if id x =? id r then r else x) <$> st)
  end.

(** Modelled from the spec: [delete] removes the matching record and
    tells whether one was removed. *)
Definition delete (st : Store) (i : jsnum) : Store * bool :=
  match getById st i with
  | None => (st, false)
  | Some _ =>
      (filter (fun r => JInt (id r) <> i) st, true)
  end.

End RecipeStore.

(** ** Query layer *)

(** Modelled from the spec: [quickRecipes]; the recipes with
    [cookingTime <= maxTime], in store order. *)
Definition quickRecipes (st : Store) (maxTime : jsnum) : list Recipe :=
  filter (fun r => js_le (JInt (cookingTime r)) maxTime = true) st.

(** ** What a run of a command shows and does *)

Inductive Level : Type := Success | Error | Warning | Info.

Inductive Colour : Type := Green | Cyan.

(** A displayed message: a text that [index.js] builds itself, or a report
    whose wording lives in [cli/command-wrapper.js]. *)
Inductive Message : Type :=
  | Text (s : string)
  | NotFoundText (i : jsnum)
  | DeletedText (nm : string).

Record RecipeInfo : Type := mkRecipeInfo {
  info_name : string;
  info_cookingTime : jsnum;
  info_servings : jsnum
}.

Record IngredientInfo : Type := mkIngredientInfo {
  iinfo_name : string;
  iinfo_amount : jsnum;
  iinfo_unit : string
}.

Inductive Event : Type :=
  | Display (lv : Level) (m : Message)
  | ConsoleLog (c : option Colour) (s : string)
  | ShowList (rs : list Recipe)
  | ShowDetails (r : Recipe)
  | ShowFormatted (r : Recipe)
  | AskRecipeInfo (answer : RecipeInfo)
  | AskIngredient (answer : IngredientInfo)
  | AskStep (answer : string)
  | AskStepIndex (maxIndex : jsnum) (answer : jsnum)
  | AskConfirm (question : string) (answer : bool)
  | StoreCreate (r : Recipe)
  | StoreUpdate (r : Recipe)
  | StoreDelete (i : jsnum)
  | Exec (command : string).

Global Instance Level_eq_dec : EqDecision Level.
Proof. solve_decision. Defined.
Global Instance Colour_eq_dec : EqDecision Colour.
Proof. solve_decision. Defined.
Global Instance Message_eq_dec : EqDecision Message.
Proof. solve_decision. Defined.
Global Instance RecipeInfo_eq_dec : EqDecision RecipeInfo.
Proof. solve_decision. Defined.
Global Instance IngredientInfo_eq_dec : EqDecision IngredientInfo.
Proof. solve_decision. Defined.
Global Instance Event_eq_dec : EqDecision Event.
Proof. solve_decision. Defined.

(** The person at the terminal: what each prompt of [cli/prompts.js]
    resolves to. *)
Record User : Type := mkUser {
  recipeInfoAnswer : RecipeInfo;
  ingredientAnswer : IngredientInfo;
  stepAnswer : string;
  stepIndexAnswer : jsnum -> jsnum;
  confirmAnswer : string -> bool
}.

(** The surroundings of one invocation: the user, and what a shell command
    run by [execSync] does to the persisted data, with the message of the
    error it throws when the command fails. *)
Record Env : Type := mkEnv {
  user : User;
  shell : string -> Store -> option string * Store
}.

(** The result of running a program: what was shown and asked, in order,
    the persisted collection afterwards, and the value, or the error that
    left the program uncaught. *)
Record Run (A : Type) : Type := mkRun {
  trace : list Event;
  final : Store;
  outcome : Exn + A
}.
Arguments mkRun {A} _ _ _.
Arguments trace {A} _.
Arguments final {A} _.
Arguments outcome {A} _.

Definition Cli (A : Type) : Type := Env -> Store -> Run A.

Global Instance Cli_ret : MRet Cli :=
  fun A a _ st => mkRun [] st (inr a).

Global Instance Cli_bind : MBind Cli :=
  fun A B k m env st =>
    let r := m env st in
    match outcome r with
    | inl e => mkRun (trace r) (final r) (inl e)
    | inr a =>
        let r' := k a env (final r) in
        mkRun (trace r ++ trace r') (final r') (outcome r')
    end.

Definition emit (e : Event) : Cli () :=
  fun _ st => mkRun [e] st (inr ()).

Definition throw {A} (e : Exn) : Cli A :=
  fun _ st => mkRun [] st (inl e).

(** A model operation called from a handler: its error is thrown. *)
Definition call {A} (x : Exn + A) : Cli A :=
  match x with
  | inl e => throw e
  | inr a => mret a
  end.

(** [try { body } catch (error) { handler }] *)
Definition try_catch {A} (body : Cli A) (handler : Exn -> Cli A) : Cli A :=
  fun env st =>
    let r := body env st in
    match outcome r with
    | inl e =>
        let r' := handler e env (final r) in
        mkRun (trace r ++ trace r') (final r') (outcome r')
    | inr _ => r
    end.

Definition getStore : Cli Store :=
  fun _ st => mkRun [] st (inr st).

Definition putStore (st' : Store) : Cli () :=
  fun _ _ => mkRun [] st' (inr ()).

(** [list.forEach(function (x, index) { ... })] *)
Fixpoint forEach_from {A} (index : Z) (l : list A) (f : A -> Z -> Cli ())
  : Cli () :=
  match l with
  | [] => mret ()
  | x :: rest => f x index ;; forEach_from (index + 1) rest f
  end.

Definition forEach {A} (l : list A) (f : A -> Z -> Cli ()) : Cli () :=
  forEach_from 0 l f.

(** *** [cli/display.js] *)

Definition displaySuccess (s : string) : Cli () := emit (Display Success (Text s)).
Definition displayError (s : string) : Cli () := emit (Display Error (Text s)).
Definition displayWarning (s : string) : Cli () := emit (Display Warning (Text s)).
Definition displayInfo (s : string) : Cli () := emit (Display Info (Text s)).
Definition displayRecipeList (rs : list Recipe) : Cli () := emit (ShowList rs).
Definition displayRecipeDetails (r : Recipe) : Cli () := emit (ShowDetails r).
Definition displayFormattedRecipe (r : Recipe) : Cli () := emit (ShowFormatted r).
Definition console_log (c : option Colour) (s : string) : Cli () :=
  emit (ConsoleLog c s).

(** *** [cli/prompts.js]: each prompt resolves to the user's answer *)

Definition promptForRecipeInfo : Cli RecipeInfo :=
  fun env st =>
    let a := recipeInfoAnswer (user env) in mkRun [AskRecipeInfo a] st (inr a).

Definition promptForIngredient : Cli IngredientInfo :=
  fun env st =>
    let a := ingredientAnswer (user env) in mkRun [AskIngredient a] st (inr a).

Definition promptForStep : Cli string :=
  fun env st =>
    let a := stepAnswer (user env) in mkRun [AskStep a] st (inr a).

Definition promptForStepIndex (maxIndex : jsnum) : Cli jsnum :=
  fun env st =>
    let a := stepIndexAnswer (user env) maxIndex in
    mkRun [AskStepIndex maxIndex a] st (inr a).

Definition promptForConfirmation (question : string) : Cli bool :=
  fun env st =>
    let a := confirmAnswer (user env) question in
    mkRun [AskConfirm question a] st (inr a).

(** *** [child_process]: [execSync] throws when the command fails *)

Definition execSync (command : string) : Cli () :=
  fun env st =>
    let '(failure, st') := shell env command st in
    mkRun [Exec command] st'
      (match failure with
       | Some message => inl (ExecError message)
       | None => inr ()
       end).

(** *** [cli/command-wrapper.js] *)

(** Modelled from the spec: the wrapper of the store's [list]. *)
Definition getRecipes : Cli (list Recipe) :=
  st ← getStore; mret (RecipeStore.listAll st).

(** Modelled from the spec: the wrapper of the store's [getById].  Absence
    is not an error: it is reported as a warning, and the caller gets the
    absent value. *)
Definition getRecipeById (i : jsnum) : Cli (option Recipe) :=
  st ← getStore;
  match RecipeStore.getById st i with
  | Some r => mret (Some r)
  | None => emit (Display Warning (NotFoundText i)) ;; mret None
  end.

(** Modelled from the spec: the wrapper of the store's [create]. *)
Definition createNewRecipe (r : Recipe) : Cli () :=
  st ← getStore;
  let '(st', r') := RecipeStore.create st r in
  putStore st' ;; emit (StoreCreate r').

(** Modelled from the spec: the wrapper of the store's [update]; it reports
    the given message on success and turns the store's [NotFoundError]
    into an error message. *)
Definition updateExistingRecipe (r : Recipe) (successMessage : string) : Cli () :=
  st ← getStore;
  match RecipeStore.update st r with
  | inl _ => emit (Display Error (NotFoundText (JInt (id r))))
  | inr st' => putStore st' ;; emit (StoreUpdate r) ;; displaySuccess successMessage
  end.

(** Modelled from the spec: the wrapper of the store's [delete]; it reports
    the outcome. *)
Definition deleteRecipe (i : jsnum) (nm : string) : Cli () :=
  st ← getStore;
  let '(st', removed) := RecipeStore.delete st i in
  putStore st' ;; emit (StoreDelete i) ;;
  if removed : bool then emit (Display Success (DeletedText nm))
  else emit (Display Warning (NotFoundText i)).

(** Modelled from the spec: the wrapper of the query layer; the callback
    receives the quick recipes and the threshold. *)
Definition getQuickRecipesList (time : jsnum) : Cli (list Recipe * jsnum) :=
  st ← getStore; mret (quickRecipes st time, time).

(** ** The command handlers of [index.js] *)

(** The double quote of the template literals. *)
Definition dq : string := String "034"%char EmptyString.

Definition quoted (s : string) : string := dq +:+ s +:+ dq.

(** [error.message] *)
Definition error_message (e : Exn) : string :=
  match e with
  | ExecError message => message
  | ValidationError => "ValidationError"
  | NotFoundError => "NotFoundError"
  | IndexError => "IndexError"
  end.

(** [list] *)
Definition cmd_list : Cli () :=
  recipes ← getRecipes;
  displayRecipeList recipes.

(** [view <id>] *)
Definition cmd_view (argv_id : jsnum) : Cli () :=
  recipe ← getRecipeById argv_id;
  match recipe with
  | Some recipe => displayRecipeDetails recipe
  | None => mret ()
  end.

(** [format <id>] *)
Definition cmd_format (argv_id : jsnum) : Cli () :=
  recipe ← getRecipeById argv_id;
  match recipe with
  | Some recipe => displayFormattedRecipe recipe
  | None => mret ()
  end.

(** [create] *)
Definition cmd_create : Cli () :=
  recipeInfo ← promptForRecipeInfo;
  newRecipe ← call (Model.createRecipe (info_name recipeInfo)
                      (info_cookingTime recipeInfo) (info_servings recipeInfo));
  createNewRecipe newRecipe ;;
  displaySuccess ("Recipe " +:+ quoted (name newRecipe) +:+ " created successfully!").

(** [add-ingredient <id>] *)
Definition cmd_add_ingredient (argv_id : jsnum) : Cli () :=
  recipe ← getRecipeById argv_id;
  match recipe with
  | None => mret ()
  | Some recipe =>
      ingredientInfo ← promptForIngredient;
      recipe ← call (Model.addIngredient recipe (iinfo_name ingredientInfo)
                       (iinfo_amount ingredientInfo) (iinfo_unit ingredientInfo));
      let successMessage :=
        "Added " +:+ iinfo_name ingredientInfo +:+ " to " +:+ quoted (name recipe) in
      updateExistingRecipe recipe successMessage
  end.

(** [add-step <id>] *)
Definition cmd_add_step (argv_id : jsnum) : Cli () :=
  recipe ← getRecipeById argv_id;
  match recipe with
  | None => mret ()
  | Some recipe =>
      instruction ← promptForStep;
      recipe ← call (Model.addStep recipe instruction);
      let successMessage :=
        "Added step " +:+ pretty (stepCount recipe) +:+ " to " +:+ quoted (name recipe) in
      updateExistingRecipe recipe successMessage
  end.

(** [let stepIndex = null; if (argv.stepIndex) { stepIndex = argv.stepIndex - 1; }]
    An omitted positional is [undefined], here [None], and falsy. *)
Definition stepIndex_of (argv_stepIndex : option jsnum) : option jsnum :=
  match argv_stepIndex with
  | Some n => if js_truthy n then Some (js_sub n (JInt 1)) else None
  | None => None
  end.

(** [`Removed step ${index + 1} from "${recipe.name}"`] *)
Definition removed_message (index : jsnum) (recipe : Recipe) : string :=
  "Removed step " +:+ js_show (js_add index (JInt 1))
    +:+ " from " +:+ quoted (name recipe).

(** [`Invalid step index. Please use a number between 1 and ${recipe.steps.length}`] *)
Definition invalid_index_message (recipe : Recipe) : string :=
  "Invalid step index. Please use a number between 1 and "
    +:+ pretty (stepCount recipe).

(** [remove-step <id> [stepIndex]] *)
Definition cmd_remove_step (argv_id : jsnum) (argv_stepIndex : option jsnum)
  : Cli () :=
  recipe ← getRecipeById argv_id;
  match recipe with
  | None => mret ()
  | Some recipe =>
      if stepCount recipe =? 0 then
        displayWarning "This recipe has no steps to remove"
      else
        match stepIndex_of argv_stepIndex with
        | None =>
            console_log (Some Cyan) "Current steps:" ;;
            forEach (steps recipe) (fun step index =>
              console_log None (pretty (index + 1) +:+ ". " +:+ step)) ;;
            index ← promptForStepIndex (JInt (stepCount recipe - 1));
            recipe ← call (Model.removeStep recipe index);
            let successMessage := removed_message index recipe in
            updateExistingRecipe recipe successMessage
        | Some stepIndex =>
            if js_lt stepIndex (JInt 0) || js_ge stepIndex (JInt (stepCount recipe))
            then displayWarning (invalid_index_message recipe)
            else
              recipe ← call (Model.removeStep recipe stepIndex);
              let successMessage := removed_message stepIndex recipe in
              updateExistingRecipe recipe successMessage
        end
  end.

(** [`Are you sure you want to delete "${recipe.name}"?`] *)
Definition delete_question (recipe : Recipe) : string :=
  "Are you sure you want to delete " +:+ quoted (name recipe) +:+ "?".

(** [delete <id>] *)
Definition cmd_delete (argv_id : jsnum) : Cli () :=
  recipe ← getRecipeById argv_id;
  match recipe with
  | None => mret ()
  | Some recipe =>
      confirmed ← promptForConfirmation (delete_question recipe);
      if negb confirmed then displayInfo "Delete cancelled"
      else deleteRecipe argv_id (name recipe)
  end.

(** [quick [time]]: the positional has [default: 30]. *)
Definition quick_default : jsnum := JInt 30.

Definition cmd_quick (time : option jsnum) : Cli () :=
  let argv_time := default quick_default time in
  '(quick, maxTime) ← getQuickRecipesList argv_time;
  if 0 <? Z.of_nat (length quick) then
    console_log (Some Green)
      ("Found " +:+ pretty (Z.of_nat (length quick)) +:+ " quick recipes under "
         +:+ js_show maxTime +:+ " minutes:") ;;
    forEach quick (fun recipe _ =>
      console_log None
        (name recipe +:+ " - " +:+ pretty (cookingTime recipe) +:+ " minutes"))
  else
    displayWarning ("No quick recipes found under " +:+ js_show maxTime +:+ " minutes").

(** [reset-data] *)
Definition reset_command : string := "npm run reset-data".

Definition reset_question : string :=
  "Are you sure you want to reset all recipe data to defaults? This cannot be undone.".

Definition cmd_reset_data : Cli () :=
  confirmed ← promptForConfirmation reset_question;
  if negb confirmed then displayInfo "Reset cancelled"
  else
    try_catch
      (execSync reset_command ;;
       displaySuccess "Recipe data has been reset to defaults")
      (fun error => displayError ("Failed to reset data: " +:+ error_message error)).

(** The command line, after yargs has parsed it. *)
Inductive Command : Type :=
  | CmdList
  | CmdView (i : jsnum)
  | CmdFormat (i : jsnum)
  | CmdCreate
  | CmdAddIngredient (i : jsnum)
  | CmdAddStep (i : jsnum)
  | CmdRemoveStep (i : jsnum) (stepIndex : option jsnum)
  | CmdDelete (i : jsnum)
  | CmdQuick (time : option jsnum)
  | CmdResetData.

Definition dispatch (c : Command) : Cli () :=
  match c with
  | CmdList => cmd_list
  | CmdView i => cmd_view i
  | CmdFormat i => cmd_format i
  | CmdCreate => cmd_create
  | CmdAddIngredient i => cmd_add_ingredient i
  | CmdAddStep i => cmd_add_step i
  | CmdRemoveStep i stepIndex => cmd_remove_step i stepIndex
  | CmdDelete i => cmd_delete i
  | CmdQuick time => cmd_quick time
  | CmdResetData => cmd_reset_data
  end.

(** ** Reports: what the runs are compared with *)

(** What the [quick] handler prints for a threshold. *)
Definition quick_report (st : Store) (maxTime : jsnum) : list Event :=
  match quickRecipes st maxTime with
  | [] =>
      [Display Warning
         (Text ("No quick recipes found under " +:+ js_show maxTime +:+ " minutes"))]
  | quick =>
      ConsoleLog (Some Green)
        ("Found " +:+ pretty (Z.of_nat (length quick)) +:+ " quick recipes under "
           +:+ js_show maxTime +:+ " minutes:")
      :: ((λ r, ConsoleLog None
                  (name r +:+ " - " +:+ pretty (cookingTime r) +:+ " minutes"))
            <$> quick)
  end.

(** The collection after the record with the id of [r] is overwritten. *)
Definition persisted (st : Store) (r : Recipe) : Store :=
  (λ x, if id x =? id r then r else x) <$> st.

(** The commands that look a recipe up by id. *)
Definition lookup_commands (i : jsnum) (stepIndex : option jsnum) : list Command :=
  [CmdView i; CmdFormat i; CmdAddIngredient i; CmdAddStep i;
   CmdRemoveStep i stepIndex; CmdDelete i].

(** The listing that [remove-step] prints before it asks for an index. *)
Definition step_listing (r : Recipe) : list Event :=
  ConsoleLog (Some Cyan) "Current steps:"
  :: imap (λ k step, ConsoleLog None (pretty (Z.of_nat k + 1) +:+ ". " +:+ step))
       (steps r).

(** [remove-step] on its prompt path, for a stored recipe [r] with steps:
    listing, prompt, then the model's [removeStep] at the answer and, when
    that returns, the update. *)
Definition remove_step_prompted (r : Recipe) (env : Env) (st : Store) : Run () :=
  let maxIndex := JInt (stepCount r - 1) in
  let index := stepIndexAnswer (user env) maxIndex in
  let shown := step_listing r ++ [AskStepIndex maxIndex index] in
  match Model.removeStep r index with
  | inl e => mkRun shown st (inl e)
  | inr r' =>
      mkRun (shown ++ [StoreUpdate r'; Display Success (Text (removed_message index r'))])
            (persisted st r') (inr ())
  end.

(** Kinds of events. *)
Definition is_warning (e : Event) : bool :=
  match e with
  | Display Warning _ => true
  | _ => false
  end.

Definition is_exec (e : Event) : bool :=
  match e with
  | Exec _ => true
  | _ => false
  end.

Definition is_message (e : Event) : bool :=
  match e with
  | Display _ _ => true
  | _ => false
  end.

(** Where an error that leaves a handler comes from: the model operation
    that the handler calls right after its prompt. *)
Definition escapes_from (c : Command) (env : Env) (st : Store) (e : Exn) : Prop :=
  match c with
  | CmdCreate =>
      let info := recipeInfoAnswer (user env) in
      Model.createRecipe (info_name info) (info_cookingTime info) (info_servings info)
        = inl e
  | CmdAddIngredient i =>
      let info := ingredientAnswer (user env) in
      ∃ r, RecipeStore.getById st i = Some r ∧
           Model.addIngredient r (iinfo_name info) (iinfo_amount info) (iinfo_unit info)
             = inl e
  | CmdAddStep i =>
      ∃ r, RecipeStore.getById st i = Some r ∧
           Model.addStep r (stepAnswer (user env)) = inl e
  | CmdRemoveStep i arg =>
      ∃ r, RecipeStore.getById st i = Some r ∧ steps r ≠ [] ∧
           stepIndex_of arg = None ∧
           Model.removeStep r (stepIndexAnswer (user env) (JInt (stepCount r - 1)))
             = inl e
  | _ => False
  end.

Definition is_prompt (e : Event) : bool :=
  match e with
  | AskRecipeInfo _ | AskIngredient _ | AskStep _ | AskStepIndex _ _
  | AskConfirm _ _ => true
  | _ => false
  end.

Definition is_store_op (e : Event) : bool :=
  match e with
  | StoreCreate _ | StoreUpdate _ | StoreDelete _ => true
  | _ => false
  end.

(** The commands whose handlers only look up and display. *)
Definition read_only (c : Command) : bool :=
  match c with
  | CmdList | CmdView _ | CmdFormat _ | CmdQuick _ => true
  | _ => false
  end.

(** How many events of a kind a trace holds. *)
Definition count (p : Event → bool) (l : list Event) : nat :=
  length (filter (λ e, p e = true) l).

(** ** Safe integers and validated answers *)

(** [Number.MAX_SAFE_INTEGER]: up to it every integer is a number of its
    own and is printed with all its digits. *)
Definition MAX_SAFE_INTEGER : Z := 9007199254740991.

Definition safe_integer (z : Z) : bool :=
  (- MAX_SAFE_INTEGER <=? z) && (z <=? MAX_SAFE_INTEGER).






(** ** Sample data for the examples *)

Definition tea : Recipe := mkRecipe 1 "Tea" 5 1 [] ["boil"; "steep"].

Definition stew : Recipe := mkRecipe 2 "Stew" 45 4 [] [].

(** A user who confirms everything and picks the first step. *)
Definition agreeable : User :=
  mkUser (mkRecipeInfo "Soup" (JInt 20) (JInt 2))
         (mkIngredientInfo "Water" (JInt 1) "cup")
         "stir" (λ _, JInt 0) (λ _, true).

(** A user who declines; the other answers are ones that validated prompts
    do not return: empty texts, a non-numeric amount, no valid step. *)
Definition reluctant : User :=
  mkUser (mkRecipeInfo EmptyString (JInt 5) (JInt 1))
         (mkIngredientInfo EmptyString JNaN "cup")
         EmptyString (λ _, JInt (-1)) (λ _, false).

(** Shell commands that succeed and change nothing, and that fail and
    change nothing. *)
Definition quiet_shell : string → Store → option string * Store :=
  λ _ st, (None, st).

Definition failing_shell : string → Store → option string * Store :=
  λ _ st, (Some "Command failed: npm run reset-data", st).

(** * Properties *)

(** ** Records *)

Lemma with_steps_same (r : Recipe) : with_steps r (steps r) = r.
Proof. by destruct r. Qed.

Lemma with_steps_twice (r : Recipe) (l l' : list string) :
  with_steps (with_steps r l) l' = with_steps r l'.
Proof. done. Qed.

Lemma stepCount_with_steps (r : Recipe) (l : list string) :
  stepCount (with_steps r l) = Z.of_nat (length l).
Proof. done. Qed.

Lemma stepCount_zero (r : Recipe) : stepCount r = 0 ↔ steps r = [].
Proof.
  unfold stepCount. destruct (steps r); simpl; [done|].
  split; [lia | done].
Qed.

(** ** Recipe model *)

Section model.
Implicit Types (r : Recipe) (s : string) (i : Z).

Lemma addStep_ok r s :
  s ≠ EmptyString → Model.addStep r s = inr (with_steps r (steps r ++ [s])).
Proof. intros Hs. unfold Model.addStep. by rewrite bool_decide_eq_false_2. Qed.

Lemma addStep_empty r : Model.addStep r EmptyString = inl ValidationError.
Proof. done. Qed.

Lemma removeStep_in_range r i :
  0 ≤ i < stepCount r →
  Model.removeStep r (JInt i) = inr (with_steps r (delete (Z.to_nat i) (steps r))).
Proof.
  intros [Hlo Hhi]. unfold Model.removeStep.
  apply Z.leb_le in Hlo. apply Z.ltb_lt in Hhi. by rewrite Hlo, Hhi.
Qed.


Lemma removeStep_NaN r : Model.removeStep r JNaN = inl IndexError.
Proof. done. Qed.

Lemma removeStep_inv r index r' :
  Model.removeStep r index = inr r' →
  ∃ i, index = JInt i ∧ 0 ≤ i < stepCount r ∧ id r' = id r ∧ name r' = name r.
Proof.
  unfold Model.removeStep. destruct index as [i|]; [|done].
  destruct (0 <=? i) eqn:Hlo; [|done].
  destruct (i <? stepCount r) eqn:Hhi; [|done].
  intros [= <-]. exists i. apply Z.leb_le in Hlo. apply Z.ltb_lt in Hhi. done.
Qed.

Lemma addStep_inv r s r' :
  Model.addStep r s = inr r' → id r' = id r ∧ name r' = name r.
Proof. unfold Model.addStep. case_bool_decide; [done|]. by intros [= <-]. Qed.

Lemma addIngredient_inv r nm amt u r' :
  Model.addIngredient r nm amt u = inr r' → id r' = id r ∧ name r' = name r.
Proof.
  unfold Model.addIngredient. destruct amt; [|done].
  case_bool_decide; [done|]. by intros [= <-].
Qed.

End model.

(** C3: for every recipe and every step instruction, [addStep] either
    rejects the instruction, which is then the empty one, or appends it at
    the last index of the new [steps]; [removeStep] at that just-added index
    then succeeds and gives back the original recipe, hence the original
    [steps] sequence exactly. *)
Theorem addStep_removeStep_roundtrip (r : Recipe) (instruction : string) :
  match Model.addStep r instruction with
  | inl e => e = ValidationError ∧ instruction = EmptyString
  | inr r' =>
      steps r' = steps r ++ [instruction] ∧
      steps r' !! Z.to_nat (stepCount r' - 1) = Some instruction ∧
      Model.removeStep r' (JInt (stepCount r' - 1)) = inr r ∧
      (∀ r'', Model.removeStep r' (JInt (stepCount r' - 1)) = inr r'' →
              steps r'' = steps r)
  end.
Proof.
  unfold Model.addStep. case_bool_decide as Hs; [done|].
  set (r' := with_steps r (steps r ++ [instruction])).
  assert (Hlen : stepCount r' - 1 = stepCount r).
  { unfold r'. rewrite stepCount_with_steps, length_app. unfold stepCount.
    simpl. lia. }
  assert (Hrm : Model.removeStep r' (JInt (stepCount r' - 1)) = inr r).
  { rewrite removeStep_in_range by (unfold stepCount in *; lia).
    rewrite Hlen. unfold r'. rewrite with_steps_twice. unfold stepCount.
    rewrite Nat2Z.id. simpl. rewrite delete_middle, app_nil_r.
    by rewrite with_steps_same. }
  split_and!.
  - done.
  - rewrite Hlen. unfold stepCount. rewrite Nat2Z.id. simpl.
    by apply list_lookup_middle.
  - done.
  - intros r'' Hr''. rewrite Hrm in Hr''. by injection Hr'' as <-.
Qed.

Example addStep_removeStep_tea :
  let tea := mkRecipe 1 "Tea" 5 1 [] ["boil"] in
  ∃ r', Model.addStep tea "steep" = inr r' ∧ steps r' = ["boil"; "steep"] ∧
        Model.removeStep r' (JInt 1) = inr tea.
Proof. simpl. eexists. split_and!; reflexivity. Qed.

(** ** Recipe store *)

Section store.
Implicit Types (st : Store) (r : Recipe) (z : Z).

Lemma foldr_max_ge z (l : list Z) (i : Z) :
  i = z ∨ i ∈ l → i ≤ foldr Z.max z l.
Proof.
  induction l as [|x l IH]; simpl.
  - intros [->|Hin]; [lia | by apply elem_of_nil in Hin].
  - intros [->|Hin].
    + specialize (IH (or_introl eq_refl)). lia.
    + apply elem_of_cons in Hin as [->|Hin]; [lia|].
      specialize (IH (or_intror Hin)). lia.
Qed.

Lemma nextId_above st z : z ∈ RecipeStore.ids st → z < RecipeStore.nextId st.
Proof.
  unfold RecipeStore.nextId. destruct (RecipeStore.ids st) as [|i rest].
  - intros Hin. by apply elem_of_nil in Hin.
  - intros Hin. apply elem_of_cons in Hin.
    pose proof (foldr_max_ge i rest z Hin). lia.
Qed.

Lemma nextId_fresh st : RecipeStore.nextId st ∉ RecipeStore.ids st.
Proof. intros Hin. apply nextId_above in Hin. lia. Qed.

Lemma ids_app st1 st2 :
  RecipeStore.ids (st1 ++ st2) = RecipeStore.ids st1 ++ RecipeStore.ids st2.
Proof. unfold RecipeStore.ids. apply fmap_app. Qed.

Lemma getById_None st z :
  RecipeStore.getById st (JInt z) = None ↔ z ∉ RecipeStore.ids st.
Proof.
  unfold RecipeStore.ids. induction st as [|x st IH]; simpl.
  - split; [intros _ Hin; by apply elem_of_nil in Hin | done].
  - rewrite not_elem_of_cons. destruct (id x =? z) eqn:Hx.
    + apply Z.eqb_eq in Hx. split; [done | intros [Hne _]; congruence].
    + apply Z.eqb_neq in Hx. rewrite IH.
      split; [intros Hz; split; [congruence | done] | by intros [_ Hz]].
Qed.

(** No recipe with that id: the lookup is absent. *)
Lemma getById_absent st (i : jsnum) :
  (∀ r, r ∈ st → JInt (id r) ≠ i) → RecipeStore.getById st i = None.
Proof.
  intros Hno. destruct i as [z|]; [|done].
  apply getById_None. unfold RecipeStore.ids. intros Hin.
  apply list_elem_of_fmap in Hin as (r & -> & Hr). by apply (Hno r).
Qed.

Lemma getById_Some st (i : jsnum) r :
  RecipeStore.getById st i = Some r → r ∈ st ∧ i = JInt (id r).
Proof.
  destruct i as [z|]; [|done]. simpl. intros Hfind.
  apply find_some in Hfind as [Hin Heq]. apply Z.eqb_eq in Heq.
  split; [by apply list_elem_of_In | by rewrite Heq].
Qed.

Lemma getById_snoc st r z :
  RecipeStore.getById (st ++ [r]) (JInt z) =
    match RecipeStore.getById st (JInt z) with
    | Some x => Some x
    | None => if id r =? z then Some r else None
    end.
Proof.
  simpl. induction st as [|x st IH]; simpl; [done|].
  by destruct (id x =? z).
Qed.

Lemma update_ids st r st' :
  RecipeStore.update st r = inr st' → RecipeStore.ids st' = RecipeStore.ids st.
Proof.
  unfold RecipeStore.update. destruct (RecipeStore.getById _ _); [|done].
  intros [= <-]. unfold RecipeStore.ids. rewrite <- list_fmap_compose.
  apply list_fmap_ext. intros _ x _. simpl.
  destruct (id x =? id r) eqn:Hx; [|done]. apply Z.eqb_eq in Hx. done.
Qed.

Lemma delete_ids_sublist st (i : jsnum) :
  RecipeStore.ids (fst (RecipeStore.delete st i)) `sublist_of` RecipeStore.ids st.
Proof.
  unfold RecipeStore.delete. destruct (RecipeStore.getById _ _); simpl; [|done].
  unfold RecipeStore.ids. apply fmap_sublist, sublist_filter.
Qed.

End store.

(** C4: [create] gives the new recipe an id that no stored record has,
    appends it, and [getById] of that id then returns the created record;
    collections with pairwise distinct ids stay so under [create], [update]
    and [delete]. *)
Theorem create_assigns_fresh_id (st : Store) (r : Recipe) :
  let st' := fst (RecipeStore.create st r) in
  let r' := snd (RecipeStore.create st r) in
  (id r' ∉ RecipeStore.ids st) ∧
  (∀ x, x ∈ st → id x ≠ id r') ∧
  r' = with_id r (id r') ∧
  st' = st ++ [r'] ∧
  RecipeStore.getById st' (JInt (id r')) = Some r' ∧
  (NoDup (RecipeStore.ids st) → NoDup (RecipeStore.ids st')) ∧
  (∀ u st2, NoDup (RecipeStore.ids st) → RecipeStore.update st u = inr st2 →
            NoDup (RecipeStore.ids st2)) ∧
  (∀ i, NoDup (RecipeStore.ids st) →
        NoDup (RecipeStore.ids (fst (RecipeStore.delete st i)))).
Proof.
  cbv zeta. unfold RecipeStore.create. cbn [fst snd with_id id].
  pose proof (nextId_fresh st) as Hfresh. split_and!.
  - done.
  - intros x Hx Heq. apply Hfresh. rewrite <- Heq.
    unfold RecipeStore.ids. by apply list_elem_of_fmap_2.
  - done.
  - done.
  - rewrite getById_snoc. apply getById_None in Hfresh. rewrite Hfresh.
    cbn [id]. by rewrite Z.eqb_refl.
  - intros Hnd. rewrite ids_app. apply NoDup_app. split_and!; [done| |].
    + intros z Hz Hz'. apply list_elem_of_singleton in Hz'. simpl in Hz'.
      by subst z.
    + apply NoDup_singleton.
  - intros u st2 Hnd Hup. by rewrite (update_ids _ _ _ Hup).
  - intros i Hnd. eapply sublist_NoDup; [done | apply delete_ids_sublist].
Qed.

Lemma create_assigns_fresh_id_witness :
  let st := [mkRecipe 1 "Tea" 5 1 [] []; mkRecipe 4 "Stew" 45 4 [] []] in
  let soup := mkRecipe 0 "Soup" 20 2 [] [] in
  NoDup (RecipeStore.ids st) ∧
  id (snd (RecipeStore.create st soup)) = 5 ∧
  NoDup (RecipeStore.ids (fst (RecipeStore.create st soup))) ∧
  NoDup (RecipeStore.ids (fst (RecipeStore.delete st (JInt 1)))).
Proof.
  assert (Hnd : NoDup (RecipeStore.ids
            [mkRecipe 1 "Tea" 5 1 [] []; mkRecipe 4 "Stew" 45 4 [] []])).
  { apply (bool_decide_unpack _). vm_compute. exact I. }
  pose proof (create_assigns_fresh_id
    [mkRecipe 1 "Tea" 5 1 [] []; mkRecipe 4 "Stew" 45 4 [] []]
    (mkRecipe 0 "Soup" 20 2 [] [])) as H.
  cbv zeta in H. destruct H as (_ & _ & _ & _ & _ & Hc & _ & Hd).
  split_and!; [exact Hnd | reflexivity | exact (Hc Hnd) | exact (Hd (JInt 1) Hnd)].
Defined.

(** ** Running programs *)

Section running.
Context {A B : Type}.
Implicit Types (env : Env) (st : Store).

Lemma run_bind (m : Cli A) (k : A → Cli B) env st :
  (m ≫= k) env st =
    match outcome (m env st) with
    | inl e => mkRun (trace (m env st)) (final (m env st)) (inl e)
    | inr a =>
        mkRun (trace (m env st) ++ trace (k a env (final (m env st))))
              (final (k a env (final (m env st))))
              (outcome (k a env (final (m env st))))
    end.
Proof. done. Qed.

Lemma run_call_ok (x : Exn + A) (a : A) env st :
  x = inr a → call x env st = mkRun [] st (inr a).
Proof. by intros ->. Qed.

End running.

(** A [forEach] whose callback logs one line per element. *)
Lemma run_forEach_log {A} (c : option Colour) (g : A → Z → string)
    (l : list A) (index : Z) (env : Env) (st : Store) :
  forEach_from index l (λ x i, console_log c (g x i)) env st =
    mkRun (imap (λ k x, ConsoleLog c (g x (index + Z.of_nat k))) l) st (inr ()).
Proof.
  revert index. induction l as [|x l IH]; intros index; simpl; [done|].
  rewrite run_bind. cbn [console_log emit outcome trace final].
  rewrite IH. cbn [trace final outcome app]. f_equal. f_equal.
  - by rewrite Z.add_0_r.
  - apply imap_ext. intros k y _. simpl. do 2 f_equal. lia.
Qed.

(** ** Query layer *)

Section query.
Implicit Types (st : Store) (r : Recipe) (maxTime : Z).

Lemma elem_of_quickRecipes st maxTime r :
  r ∈ quickRecipes st (JInt maxTime) ↔ r ∈ st ∧ cookingTime r ≤ maxTime.
Proof.
  unfold quickRecipes. rewrite list_elem_of_filter. simpl.
  rewrite Z.leb_le. tauto.
Qed.

Lemma quickRecipes_sublist st (t : jsnum) : quickRecipes st t `sublist_of` st.
Proof. apply sublist_filter. Qed.

(** Every order-preserving selection of recipes within the threshold is
    contained, in order, in the result: nothing is left out or repeated. *)
Lemma quickRecipes_greatest st maxTime (l : list Recipe) :
  l `sublist_of` st → Forall (λ r, cookingTime r ≤ maxTime) l →
  l `sublist_of` quickRecipes st (JInt maxTime).
Proof.
  unfold quickRecipes. intros Hsub. induction Hsub as [|x l1 l2 _ IH|x l1 l2 _ IH].
  - done.
  - intros Hall. apply Forall_cons in Hall as [Hx Hall].
    rewrite filter_cons_True by (simpl; by apply Z.leb_le).
    apply sublist_skip, IH, Hall.
  - intros Hall. rewrite filter_cons. case_decide.
    + apply sublist_cons, IH, Hall.
    + apply IH, Hall.
Qed.

Lemma quickRecipes_NaN st : quickRecipes st JNaN = [].
Proof.
  unfold quickRecipes. induction st as [|x st IH]; [done|].
  rewrite filter_cons_False; [done | simpl; discriminate].
Qed.

End query.

Lemma run_cmd_quick (time : option jsnum) (env : Env) (st : Store) :
  cmd_quick time env st =
    mkRun (quick_report st (default quick_default time)) st (inr ()).
Proof.
  unfold cmd_quick, getQuickRecipesList, quick_report.
  rewrite !run_bind. cbn [getStore mret Cli_ret outcome trace final app].
  destruct (quickRecipes st (default quick_default time)) as [|r quick] eqn:Hq.
  - done.
  - replace (0 <? Z.of_nat (length (r :: quick))) with true
      by (symmetry; apply Z.ltb_lt; simpl; lia).
    rewrite run_bind. cbn [console_log emit outcome trace final app].
    unfold forEach. rewrite run_forEach_log. cbn [trace final outcome].
    do 2 f_equal. exact (imap_const _ _).
Qed.

(** C1: [quickRecipes maxTime] holds exactly the stored recipes with
    [cookingTime <= maxTime], in store order (it is a subsequence of the
    store that contains every subsequence within the threshold), and the
    [quick] command without a time runs as with the time 30 and reports
    [quickRecipes 30].  No cooking time is within [NaN]. *)
Theorem quickRecipes_exact_and_default (st : Store) (maxTime : Z) (env : Env) :
  (∀ r, r ∈ quickRecipes st (JInt maxTime) ↔ r ∈ st ∧ cookingTime r ≤ maxTime) ∧
  quickRecipes st (JInt maxTime) `sublist_of` st ∧
  (∀ l, l `sublist_of` st → Forall (λ r, cookingTime r ≤ maxTime) l →
        l `sublist_of` quickRecipes st (JInt maxTime)) ∧
  quickRecipes st JNaN = [] ∧
  cmd_quick (Some (JInt maxTime)) env st =
    mkRun (quick_report st (JInt maxTime)) st (inr ()) ∧
  cmd_quick None env st = cmd_quick (Some (JInt 30)) env st ∧
  cmd_quick None env st = mkRun (quick_report st (JInt 30)) st (inr ()).
Proof.
  split_and!.
  - intros r. apply elem_of_quickRecipes.
  - apply quickRecipes_sublist.
  - apply quickRecipes_greatest.
  - apply quickRecipes_NaN.
  - apply run_cmd_quick.
  - done.
  - apply run_cmd_quick.
Qed.

Lemma quickRecipes_exact_and_default_witness :
  let tea := mkRecipe 1 "Tea" 10 1 [] [] in
  let stew := mkRecipe 2 "Stew" 45 4 [] [] in
  [tea] `sublist_of` quickRecipes [tea; stew] (JInt 30).
Proof.
  cbv zeta.
  pose proof (quickRecipes_exact_and_default
    [mkRecipe 1 "Tea" 10 1 [] []; mkRecipe 2 "Stew" 45 4 [] []] 30
    (mkEnv (mkUser (mkRecipeInfo "Tea" (JInt 10) (JInt 1))
                   (mkIngredientInfo "Water" (JInt 1) "cup") "boil"
                   (λ _, JInt 0) (λ _, true))
           (λ _ st, (None, st)))) as (_ & _ & Hgreatest & _).
  apply Hgreatest.
  - apply sublist_skip, sublist_cons, sublist_nil.
  - apply Forall_cons. split; [simpl; lia | apply Forall_nil_2].
Defined.

Example quickRecipes_10_45 :
  quickRecipes [mkRecipe 1 "Tea" 10 1 [] []; mkRecipe 2 "Stew" 45 4 [] []] (JInt 30)
  = [mkRecipe 1 "Tea" 10 1 [] []].
Proof. reflexivity. Qed.

Example quickRecipes_zero :
  quickRecipes [mkRecipe 1 "Water" 0 1 [] []; mkRecipe 2 "Tea" 5 1 [] []] (JInt 0)
  = [mkRecipe 1 "Water" 0 1 [] []].
Proof. reflexivity. Qed.

(** ** The lookup and the update, as the handlers use them *)

Section wrappers.
Implicit Types (env : Env) (st : Store) (r : Recipe) (i : jsnum).

Lemma run_getRecipeById_found env st i r :
  RecipeStore.getById st i = Some r →
  getRecipeById i env st = mkRun [] st (inr (Some r)).
Proof.
  intros Hget. unfold getRecipeById. rewrite run_bind.
  cbn [getStore outcome trace final app]. by rewrite Hget.
Qed.

Lemma run_getRecipeById_absent env st i :
  RecipeStore.getById st i = None →
  getRecipeById i env st = mkRun [Display Warning (NotFoundText i)] st (inr None).
Proof.
  intros Hget. unfold getRecipeById. rewrite run_bind.
  cbn [getStore outcome trace final app]. by rewrite Hget.
Qed.

Lemma run_update_found env st i r r' (msg : string) :
  RecipeStore.getById st i = Some r → id r' = id r →
  updateExistingRecipe r' msg env st =
    mkRun [StoreUpdate r'; Display Success (Text msg)] (persisted st r') (inr ()).
Proof.
  intros Hget Hid. apply getById_Some in Hget as Hi. destruct Hi as [_ ->].
  unfold updateExistingRecipe. rewrite run_bind.
  cbn [getStore outcome trace final app].
  unfold RecipeStore.update. rewrite Hid, Hget. rewrite <- Hid. done.
Qed.

End wrappers.

(** ** Lookups that find nothing *)

Section not_found.
Variables (env : Env) (st : Store) (i : jsnum).
Hypothesis Habsent : RecipeStore.getById st i = None.

Let warned : Run () := mkRun [Display Warning (NotFoundText i)] st (inr ()).

Local Ltac absent h :=
  unfold h; rewrite run_bind, (run_getRecipeById_absent env st i Habsent);
  reflexivity.

Lemma run_view_absent : cmd_view i env st = warned.
Proof. absent cmd_view. Qed.

Lemma run_format_absent : cmd_format i env st = warned.
Proof. absent cmd_format. Qed.

Lemma run_add_ingredient_absent : cmd_add_ingredient i env st = warned.
Proof. absent cmd_add_ingredient. Qed.

Lemma run_add_step_absent : cmd_add_step i env st = warned.
Proof. absent cmd_add_step. Qed.

Lemma run_remove_step_absent stepIndex : cmd_remove_step i stepIndex env st = warned.
Proof. absent cmd_remove_step. Qed.

Lemma run_delete_absent : cmd_delete i env st = warned.
Proof. absent cmd_delete. Qed.

End not_found.

(** C5: when no stored recipe has the id, the lookup is absent, and each of
    [view], [format], [add-ingredient], [add-step], [remove-step] and
    [delete] shows the not-found warning and nothing else: no prompt, no
    store operation, the collection as it was, and no uncaught error. *)
Theorem lookup_not_found_warns_and_stops
    (env : Env) (st : Store) (i : jsnum) (stepIndex : option jsnum) :
  (∀ r, r ∈ st → JInt (id r) ≠ i) →
  RecipeStore.getById st i = None ∧
  ∀ c, c ∈ lookup_commands i stepIndex →
       dispatch c env st = mkRun [Display Warning (NotFoundText i)] st (inr ()).
Proof.
  intros Hno. pose proof (getById_absent st i Hno) as Habsent.
  split; [done|]. intros c Hc. unfold lookup_commands in Hc.
  repeat (apply elem_of_cons in Hc as [->|Hc]); simpl.
  - by apply run_view_absent.
  - by apply run_format_absent.
  - by apply run_add_ingredient_absent.
  - by apply run_add_step_absent.
  - by apply run_remove_step_absent.
  - by apply run_delete_absent.
  - by apply elem_of_nil in Hc.
Qed.

Lemma lookup_not_found_warns_and_stops_witness :
  let env := mkEnv (mkUser (mkRecipeInfo "Tea" (JInt 5) (JInt 1))
                           (mkIngredientInfo "Water" (JInt 1) "cup") "boil"
                           (λ _, JInt 0) (λ _, true))
                   (λ _ st, (None, st)) in
  let st := [mkRecipe 1 "Tea" 5 1 [] ["boil"]] in
  dispatch (CmdDelete (JInt 7)) env st
  = mkRun [Display Warning (NotFoundText (JInt 7))] st (inr ()).
Proof.
  cbv zeta.
  refine (proj2 (lookup_not_found_warns_and_stops _ _ (JInt 7) None _) _ _).
  - intros r Hr. apply list_elem_of_singleton in Hr. subst r. discriminate.
  - unfold lookup_commands. do 5 apply list_elem_of_further. apply list_elem_of_here.
Defined.

(** ** [remove-step] on a stored recipe *)

Section remove_step.
Variables (env : Env) (st : Store) (i : jsnum) (r : Recipe).
Hypothesis Hfound : RecipeStore.getById st i = Some r.

Lemma run_remove_step_no_steps (arg : option jsnum) :
  steps r = [] →
  cmd_remove_step i arg env st =
    mkRun [Display Warning (Text "This recipe has no steps to remove")] st (inr ()).
Proof.
  intros Hnil. apply stepCount_zero in Hnil.
  unfold cmd_remove_step.
  rewrite run_bind, (run_getRecipeById_found env st i r Hfound).
  cbn [outcome trace final app]. by rewrite Hnil.
Qed.

Lemma run_remove_step_prompt (arg : option jsnum) :
  steps r ≠ [] → stepIndex_of arg = None →
  cmd_remove_step i arg env st = remove_step_prompted r env st.
Proof.
  intros Hsteps Harg.
  assert (Hcount : (stepCount r =? 0) = false).
  { apply Z.eqb_neq. by rewrite stepCount_zero. }
  unfold cmd_remove_step, remove_step_prompted, step_listing.
  rewrite run_bind, (run_getRecipeById_found env st i r Hfound).
  cbn [outcome trace final app]. rewrite Hcount, Harg.
  rewrite run_bind. cbn [console_log emit outcome trace final app].
  rewrite run_bind. unfold forEach. rewrite run_forEach_log.
  cbn [outcome trace final app].
  rewrite run_bind. cbn [promptForStepIndex outcome trace final app].
  rewrite run_bind.
  set (index := stepIndexAnswer (user env) (JInt (stepCount r - 1))).
  destruct (Model.removeStep r index) as [e|r'] eqn:Hrm.
  - reflexivity.
  - apply removeStep_inv in Hrm as (_ & _ & _ & Hid & _).
    cbn [call mret Cli_ret outcome trace final app].
    rewrite (run_update_found env st i r r' _ Hfound Hid).
    cbn [outcome trace final app]. by rewrite <- app_assoc.
Qed.

Lemma run_remove_step_rejected (arg : option jsnum) (k : Z) :
  steps r ≠ [] → stepIndex_of arg = Some (JInt k) →
  ¬ (0 ≤ k < stepCount r) →
  cmd_remove_step i arg env st =
    mkRun [Display Warning (Text (invalid_index_message r))] st (inr ()).
Proof.
  intros Hsteps Harg Hout.
  assert (Hcount : (stepCount r =? 0) = false).
  { apply Z.eqb_neq. by rewrite stepCount_zero. }
  unfold cmd_remove_step.
  rewrite run_bind, (run_getRecipeById_found env st i r Hfound).
  cbn [outcome trace final app]. rewrite Hcount, Harg.
  replace (js_lt (JInt k) (JInt 0) || js_ge (JInt k) (JInt (stepCount r)))
    with true; [done|].
  symmetry. apply orb_true_iff. unfold js_ge. simpl.
  rewrite Z.ltb_lt, Z.leb_le. lia.
Qed.

Lemma run_remove_step_removed (arg : option jsnum) (k : Z) :
  stepIndex_of arg = Some (JInt k) → 0 ≤ k < stepCount r →
  let r' := with_steps r (delete (Z.to_nat k) (steps r)) in
  cmd_remove_step i arg env st =
    mkRun [StoreUpdate r'; Display Success (Text (removed_message (JInt k) r'))]
          (persisted st r') (inr ()).
Proof.
  intros Harg Hin r'.
  assert (Hcount : (stepCount r =? 0) = false) by (apply Z.eqb_neq; lia).
  unfold cmd_remove_step.
  rewrite run_bind, (run_getRecipeById_found env st i r Hfound).
  cbn [outcome trace final app]. rewrite Hcount, Harg.
  replace (js_lt (JInt k) (JInt 0) || js_ge (JInt k) (JInt (stepCount r)))
    with false.
  2:{ symmetry. apply orb_false_iff. unfold js_ge. simpl.
      rewrite Z.ltb_ge, Z.leb_gt. lia. }
  rewrite run_bind, (run_call_ok _ r') by (by apply removeStep_in_range).
  cbn [outcome trace final app].
  by rewrite (run_update_found env st i r r' _ Hfound eq_refl).
Qed.

End remove_step.

Lemma stepIndex_of_inv (arg : option jsnum) (x : jsnum) :
  stepIndex_of arg = Some x → ∃ n, arg = Some (JInt n) ∧ n ≠ 0 ∧ x = JInt (n - 1).
Proof.
  destruct arg as [[n|]|]; simpl; try done.
  destruct (n =? 0) eqn:Hn; simpl; [done|].
  intros [= <-]. exists n. by apply Z.eqb_neq in Hn.
Qed.

(** C10: [remove-step] on a stored recipe without steps shows the warning
    'This recipe has no steps to remove' and nothing else, whatever the
    [stepIndex] argument: no prompt, no store operation, the collection as
    it was. *)
Theorem remove_step_without_steps
    (env : Env) (st : Store) (i : jsnum) (r : Recipe) (stepIndex : option jsnum) :
  RecipeStore.getById st i = Some r → steps r = [] →
  dispatch (CmdRemoveStep i stepIndex) env st =
    mkRun [Display Warning (Text "This recipe has no steps to remove")] st (inr ()).
Proof. intros Hfound Hnil. simpl. by apply run_remove_step_no_steps with r. Qed.

Lemma remove_step_without_steps_witness :
  let env := mkEnv (mkUser (mkRecipeInfo "Tea" (JInt 5) (JInt 1))
                           (mkIngredientInfo "Water" (JInt 1) "cup") "boil"
                           (λ _, JInt 0) (λ _, true))
                   (λ _ st, (None, st)) in
  let st := [mkRecipe 1 "Tea" 5 1 [] []] in
  dispatch (CmdRemoveStep (JInt 1) (Some (JInt 1))) env st =
    mkRun [Display Warning (Text "This recipe has no steps to remove")] st (inr ()).
Proof.
  cbv zeta.
  apply (remove_step_without_steps _ _ (JInt 1) (mkRecipe 1 "Tea" 5 1 [] []));
    reflexivity.
Defined.

Lemma step_listing_no_warning (r : Recipe) :
  Forall (λ e, is_warning e = false) (step_listing r).
Proof.
  unfold step_listing. apply Forall_cons. split; [done|].
  apply Forall_forall. intros e He.
  apply elem_of_lookup_imap in He as (k & step & -> & _). done.
Qed.

(** C9: [remove-step <id> 0] on a stored recipe with steps runs exactly as
    [remove-step <id>] without the index: it prints the current steps and
    asks for an index; no warning is shown, so the index 0 is not rejected
    as out of range. *)
Theorem remove_step_zero_is_prompted (env : Env) (st : Store) (i : jsnum) (r : Recipe) :
  RecipeStore.getById st i = Some r → steps r ≠ [] →
  let run := dispatch (CmdRemoveStep i (Some (JInt 0))) env st in
  let maxIndex := JInt (stepCount r - 1) in
  js_truthy (JInt 0) = false ∧
  run = dispatch (CmdRemoveStep i None) env st ∧
  run = remove_step_prompted r env st ∧
  (∃ rest, trace run =
     step_listing r ++ AskStepIndex maxIndex (stepIndexAnswer (user env) maxIndex) :: rest) ∧
  Forall (λ e, is_warning e = false) (trace run).
Proof.
  intros Hfound Hsteps. cbv zeta.
  assert (Hrun : dispatch (CmdRemoveStep i (Some (JInt 0))) env st
                 = remove_step_prompted r env st).
  { simpl. by apply run_remove_step_prompt. }
  split_and!; [done | done | done | |]; rewrite Hrun; unfold remove_step_prompted.
  - destruct (Model.removeStep r _); cbn [trace]; [by eexists|].
    rewrite <- app_assoc. by eexists.
  - pose proof (step_listing_no_warning r) as Hlist.
    destruct (Model.removeStep r _); cbn [trace];
      repeat (apply Forall_app; split); try done; by repeat constructor.
Qed.

Lemma remove_step_zero_is_prompted_witness :
  let env := mkEnv agreeable quiet_shell in
  trace (dispatch (CmdRemoveStep (JInt 1) (Some (JInt 0))) env [tea; stew])
  = trace (remove_step_prompted tea env [tea; stew]).
Proof.
  cbv zeta.
  pose proof (remove_step_zero_is_prompted (mkEnv agreeable quiet_shell)
                [tea; stew] (JInt 1) tea) as H.
  cbv zeta in H. destruct H as (_ & _ & -> & _); [reflexivity | discriminate |].
  reflexivity.
Defined.

(** C2, at the input [remove-step 1 0]: the explicitly given index 0 lies
    outside [1, stepCount], yet no invalid-index warning is shown; the steps
    are listed, the user is asked, and the step picked at the prompt is
    removed and persisted. *)
Theorem remove_step_explicit_zero_not_rejected :
  dispatch (CmdRemoveStep (JInt 1) (Some (JInt 0))) (mkEnv agreeable quiet_shell) [tea]
  = mkRun
      [ConsoleLog (Some Cyan) "Current steps:";
       ConsoleLog None "1. boil"; ConsoleLog None "2. steep";
       AskStepIndex (JInt 1) (JInt 0);
       StoreUpdate (mkRecipe 1 "Tea" 5 1 [] ["steep"]);
       Display Success (Text ("Removed step 1 from " +:+ quoted "Tea"))]
      [mkRecipe 1 "Tea" 5 1 [] ["steep"]]
      (inr ()).
Proof. vm_compute. reflexivity. Qed.

(** The same index one position off is rejected: [remove-step 1 3] and
    [remove-step 1 -1] on a recipe with two steps only warn. *)
Example remove_step_explicit_three_rejected :
  dispatch (CmdRemoveStep (JInt 1) (Some (JInt 3))) (mkEnv agreeable quiet_shell) [tea]
  = mkRun [Display Warning (Text (invalid_index_message tea))] [tea] (inr ()).
Proof. vm_compute. reflexivity. Qed.

Example remove_step_explicit_negative_rejected :
  dispatch (CmdRemoveStep (JInt 1) (Some (JInt (-1)))) (mkEnv agreeable quiet_shell) [tea]
  = mkRun [Display Warning (Text (invalid_index_message tea))] [tea] (inr ()).
Proof. vm_compute. reflexivity. Qed.

(** X1: every explicit index that is not falsy and lies outside
    [1, stepCount] is rejected with the warning, before any mutation. *)
Lemma remove_step_explicit_out_of_range
    (env : Env) (st : Store) (i : jsnum) (r : Recipe) (n : Z) :
  RecipeStore.getById st i = Some r → steps r ≠ [] →
  n ≠ 0 → ¬ (1 ≤ n ≤ stepCount r) →
  dispatch (CmdRemoveStep i (Some (JInt n))) env st =
    mkRun [Display Warning (Text (invalid_index_message r))] st (inr ()).
Proof.
  intros Hfound Hsteps Hn Hout. simpl.
  apply run_remove_step_rejected with (k := n - 1); [done | done | | lia].
  simpl. apply Z.eqb_neq in Hn. by rewrite Hn.
Qed.

(** ** [delete] *)

Lemma run_delete_found (env : Env) (st : Store) (i : jsnum) (r : Recipe) :
  RecipeStore.getById st i = Some r →
  cmd_delete i env st =
    if confirmAnswer (user env) (delete_question r) then
      mkRun [AskConfirm (delete_question r) true; StoreDelete i;
             Display Success (DeletedText (name r))]
            (fst (RecipeStore.delete st i)) (inr ())
    else
      mkRun [AskConfirm (delete_question r) false;
             Display Info (Text "Delete cancelled")] st (inr ()).
Proof.
  intros Hfound. unfold cmd_delete.
  rewrite run_bind, (run_getRecipeById_found env st i r Hfound).
  cbn [outcome trace final app].
  rewrite run_bind. cbn [promptForConfirmation outcome trace final app].
  destruct (confirmAnswer (user env) (delete_question r)); cbn [negb]; [|done].
  unfold deleteRecipe. rewrite run_bind. cbn [getStore outcome trace final app].
  unfold RecipeStore.delete. by rewrite Hfound.
Qed.

(** C8: in a run of [delete <id>] on a stored recipe, a store delete is
    preceded by the confirmation prompt answered yes; when the user
    declines, 'Delete cancelled' is shown, the store's delete is not
    invoked and the collection is as it was. *)
Theorem delete_only_after_confirmation
    (env : Env) (st : Store) (i : jsnum) (r : Recipe) :
  RecipeStore.getById st i = Some r →
  let run := dispatch (CmdDelete i) env st in
  let question := delete_question r in
  (∀ pre j post, trace run = pre ++ StoreDelete j :: post →
                 AskConfirm question true ∈ pre) ∧
  (confirmAnswer (user env) question = false →
     run = mkRun [AskConfirm question false; Display Info (Text "Delete cancelled")]
                 st (inr ())) ∧
  (confirmAnswer (user env) question = true →
     run = mkRun [AskConfirm question true; StoreDelete i;
                  Display Success (DeletedText (name r))]
                 (fst (RecipeStore.delete st i)) (inr ())).
Proof.
  intros Hfound. cbv zeta. simpl dispatch. rewrite (run_delete_found _ _ _ _ Hfound).
  split_and!.
  - destruct (confirmAnswer (user env) (delete_question r)); cbn [trace];
      intros pre j post Heq.
    + destruct pre as [|e1 pre]; [done|]. injection Heq as <- Heq.
      apply list_elem_of_here.
    + by destruct pre as [|e1 [|e2 [|e3 pre]]].
  - by intros ->.
  - by intros ->.
Qed.

Lemma delete_only_after_confirmation_witness :
  dispatch (CmdDelete (JInt 2)) (mkEnv reluctant quiet_shell) [tea; stew]
  = mkRun [AskConfirm (delete_question stew) false;
           Display Info (Text "Delete cancelled")] [tea; stew] (inr ()).
Proof.
  pose proof (delete_only_after_confirmation (mkEnv reluctant quiet_shell)
                [tea; stew] (JInt 2) stew) as H.
  cbv zeta in H. destruct H as (_ & Hdeclined & _); [reflexivity|].
  apply Hdeclined. reflexivity.
Defined.

Example delete_confirmed :
  dispatch (CmdDelete (JInt 2)) (mkEnv agreeable quiet_shell) [tea; stew]
  = mkRun [AskConfirm (delete_question stew) true; StoreDelete (JInt 2);
           Display Success (DeletedText "Stew")] [tea] (inr ()).
Proof. vm_compute. reflexivity. Qed.

(** ** [reset-data] *)

Lemma run_reset_data (env : Env) (st : Store) :
  cmd_reset_data env st =
    if confirmAnswer (user env) reset_question then
      match shell env reset_command st with
      | (None, st') =>
          mkRun [AskConfirm reset_question true; Exec reset_command;
                 Display Success (Text "Recipe data has been reset to defaults")]
                st' (inr ())
      | (Some message, st') =>
          mkRun [AskConfirm reset_question true; Exec reset_command;
                 Display Error (Text ("Failed to reset data: " +:+ message))]
                st' (inr ())
      end
    else
      mkRun [AskConfirm reset_question false; Display Info (Text "Reset cancelled")]
            st (inr ()).
Proof.
  unfold cmd_reset_data. rewrite run_bind.
  cbn [promptForConfirmation outcome trace final app].
  destruct (confirmAnswer (user env) reset_question); cbn [negb]; [|done].
  unfold try_catch. rewrite run_bind. unfold execSync.
  by destruct (shell env reset_command st) as [[message|] st'].
Qed.

(** C7: a confirmed [reset-data] runs the external reset procedure once and
    then reports success; when the procedure fails, the failure is caught
    and shown as an error message, no error leaves the handler, and the
    handler itself touches the persisted data in no other way, so the
    collection is what the procedure left (unchanged, for an all-or-nothing
    procedure); a declined [reset-data] does not run the procedure. *)
Theorem reset_data_runs_once_and_catches (env : Env) (st : Store) :
  let run := dispatch CmdResetData env st in
  let confirmed := confirmAnswer (user env) reset_question in
  (confirmed = false →
     run = mkRun [AskConfirm reset_question false; Display Info (Text "Reset cancelled")]
                 st (inr ())) ∧
  (confirmed = true → ∀ st', shell env reset_command st = (None, st') →
     run = mkRun [AskConfirm reset_question true; Exec reset_command;
                  Display Success (Text "Recipe data has been reset to defaults")]
                 st' (inr ())) ∧
  (confirmed = true → ∀ message st', shell env reset_command st = (Some message, st') →
     run = mkRun [AskConfirm reset_question true; Exec reset_command;
                  Display Error (Text ("Failed to reset data: " +:+ message))]
                 st' (inr ()) ∧
     (st' = st → final run = st)) ∧
  length (filter (λ e, is_exec e = true) (trace run)) = (if confirmed then 1 else 0)%nat ∧
  outcome run = inr ().
Proof.
  cbv zeta. simpl dispatch. rewrite run_reset_data.
  destruct (confirmAnswer (user env) reset_question).
  - split_and!; try done.
    + by intros _ st' ->.
    + intros _ message st' ->. split; [done|]. by intros ->.
    + by destruct (shell env reset_command st) as [[message|] st'].
    + by destruct (shell env reset_command st) as [[message|] st'].
  - by split_and!.
Qed.

Lemma reset_data_runs_once_and_catches_witness :
  dispatch CmdResetData (mkEnv agreeable failing_shell) [tea]
  = mkRun [AskConfirm reset_question true; Exec reset_command;
           Display Error
             (Text ("Failed to reset data: " +:+ "Command failed: npm run reset-data"))]
          [tea] (inr ()).
Proof.
  pose proof (reset_data_runs_once_and_catches (mkEnv agreeable failing_shell) [tea])
    as H.
  cbv zeta in H. destruct H as (_ & _ & Hfailed & _).
  apply (Hfailed eq_refl "Command failed: npm run reset-data" [tea] eq_refl).
Defined.

Example reset_data_declined :
  dispatch CmdResetData (mkEnv reluctant failing_shell) [tea]
  = mkRun [AskConfirm reset_question false; Display Info (Text "Reset cancelled")]
          [tea] (inr ()).
Proof. vm_compute. reflexivity. Qed.

(** ** Errors raised by the model inside a handler *)

Section model_errors.
Variables (env : Env) (st : Store).

Lemma run_list : cmd_list env st = mkRun [ShowList st] st (inr ()).
Proof. reflexivity. Qed.

Lemma run_create :
  let info := recipeInfoAnswer (user env) in
  cmd_create env st =
    match Model.createRecipe (info_name info) (info_cookingTime info)
            (info_servings info) with
    | inl e => mkRun [AskRecipeInfo info] st (inl e)
    | inr r =>
        let r' := snd (RecipeStore.create st r) in
        mkRun [AskRecipeInfo info; StoreCreate r';
               Display Success
                 (Text ("Recipe " +:+ quoted (name r) +:+ " created successfully!"))]
              (st ++ [r']) (inr ())
    end.
Proof.
  cbv zeta. unfold cmd_create. rewrite run_bind.
  cbn [promptForRecipeInfo outcome trace final app]. rewrite run_bind.
  by destruct (Model.createRecipe _ _ _).
Qed.

Section found.
Variables (i : jsnum) (r : Recipe).
Hypothesis Hfound : RecipeStore.getById st i = Some r.

Lemma run_view_found : cmd_view i env st = mkRun [ShowDetails r] st (inr ()).
Proof.
  unfold cmd_view.
  by rewrite run_bind, (run_getRecipeById_found env st i r Hfound).
Qed.

Lemma run_format_found : cmd_format i env st = mkRun [ShowFormatted r] st (inr ()).
Proof.
  unfold cmd_format.
  by rewrite run_bind, (run_getRecipeById_found env st i r Hfound).
Qed.

Lemma run_add_ingredient_found :
  let info := ingredientAnswer (user env) in
  cmd_add_ingredient i env st =
    match Model.addIngredient r (iinfo_name info) (iinfo_amount info)
            (iinfo_unit info) with
    | inl e => mkRun [AskIngredient info] st (inl e)
    | inr r' =>
        mkRun [AskIngredient info; StoreUpdate r';
               Display Success
                 (Text ("Added " +:+ iinfo_name info +:+ " to " +:+ quoted (name r')))]
              (persisted st r') (inr ())
    end.
Proof.
  cbv zeta. unfold cmd_add_ingredient.
  rewrite run_bind, (run_getRecipeById_found env st i r Hfound).
  cbn [outcome trace final app]. rewrite run_bind.
  cbn [promptForIngredient outcome trace final app]. rewrite run_bind.
  destruct (Model.addIngredient _ _ _ _) as [e|r'] eqn:Hadd; [done|].
  apply addIngredient_inv in Hadd as [Hid _].
  cbn [call mret Cli_ret outcome trace final app].
  by rewrite (run_update_found env st i r r' _ Hfound Hid).
Qed.

Lemma run_add_step_found :
  let instruction := stepAnswer (user env) in
  cmd_add_step i env st =
    match Model.addStep r instruction with
    | inl e => mkRun [AskStep instruction] st (inl e)
    | inr r' =>
        mkRun [AskStep instruction; StoreUpdate r';
               Display Success
                 (Text ("Added step " +:+ pretty (stepCount r') +:+ " to "
                          +:+ quoted (name r')))]
              (persisted st r') (inr ())
    end.
Proof.
  cbv zeta. unfold cmd_add_step.
  rewrite run_bind, (run_getRecipeById_found env st i r Hfound).
  cbn [outcome trace final app]. rewrite run_bind.
  cbn [promptForStep outcome trace final app]. rewrite run_bind.
  destruct (Model.addStep _ _) as [e|r'] eqn:Hadd; [done|].
  apply addStep_inv in Hadd as [Hid _].
  cbn [call mret Cli_ret outcome trace final app].
  by rewrite (run_update_found env st i r r' _ Hfound Hid).
Qed.

(** With an explicit index that is not falsy, the handler's own range
    check comes first: [removeStep] is only called in range. *)
Lemma remove_step_explicit_outcome (arg : option jsnum) (x : jsnum) :
  stepIndex_of arg = Some x →
  outcome (cmd_remove_step i arg env st) = inr ().
Proof.
  intros Harg. destruct (stepIndex_of_inv arg x Harg) as (n & _ & _ & ->).
  destruct (decide (steps r = [])) as [Hnil|Hsteps].
  { by rewrite (run_remove_step_no_steps env st i r Hfound). }
  destruct (decide (0 ≤ n - 1 < stepCount r)) as [Hin|Hout].
  - by rewrite (run_remove_step_removed env st i r Hfound arg (n - 1)).
  - by rewrite (run_remove_step_rejected env st i r Hfound arg (n - 1)).
Qed.

End found.
End model_errors.

(** Where an uncaught error can come from: [index.js] has no catch around
    its model calls.  An error leaves a handler exactly when the model
    operation called after the handler's prompt ([createRecipe],
    [addIngredient], [addStep], or [removeStep] on the prompt path of
    [remove-step]) raises it; the run then ends with that error, with the
    collection as it was and without any displayed message.  Every other
    run, among them [reset-data] with a failing reset procedure and
    [remove-step] with an explicit index, ends without an uncaught error. *)
Lemma model_errors_escape_handlers
    (c : Command) (env : Env) (st : Store) (e : Exn) :
  (outcome (dispatch c env st) = inl e ↔ escapes_from c env st e) ∧
  (escapes_from c env st e →
     final (dispatch c env st) = st ∧
     Forall (λ ev, is_message ev = false) (trace (dispatch c env st))).
Proof.
  destruct c as [|i|i| |i|i|i arg|i|time|]; simpl dispatch; simpl escapes_from.
  - by rewrite run_list.
  - destruct (RecipeStore.getById st i) as [r|] eqn:Hget.
    + by rewrite (run_view_found env st i r Hget).
    + by rewrite (run_view_absent env st i Hget).
  - destruct (RecipeStore.getById st i) as [r|] eqn:Hget.
    + by rewrite (run_format_found env st i r Hget).
    + by rewrite (run_format_absent env st i Hget).
  - rewrite run_create. cbv zeta.
    destruct (Model.createRecipe _ _ _) as [e0|r]; cbn [outcome final trace].
    + split; [split; by intros [= ->] | intros _; split; [done | by repeat constructor]].
    + done.
  - destruct (RecipeStore.getById st i) as [r|] eqn:Hget.
    + rewrite (run_add_ingredient_found env st i r Hget). cbv zeta.
      destruct (Model.addIngredient _ _ _ _) as [e0|r'] eqn:Hadd;
        cbn [outcome final trace].
      * split; [split|].
        -- intros [= ->]. by exists r.
        -- intros (r0 & [= <-] & He). congruence.
        -- intros _. split; [done | by repeat constructor].
      * split; [split; [done|] | ]; intros (r0 & [= <-] & He); congruence.
    + rewrite (run_add_ingredient_absent env st i Hget).
      split; [split; [done|] | ]; by intros (r0 & ? & _).
  - destruct (RecipeStore.getById st i) as [r|] eqn:Hget.
    + rewrite (run_add_step_found env st i r Hget). cbv zeta.
      destruct (Model.addStep _ _) as [e0|r'] eqn:Hadd; cbn [outcome final trace].
      * split; [split|].
        -- intros [= ->]. by exists r.
        -- intros (r0 & [= <-] & He). congruence.
        -- intros _. split; [done | by repeat constructor].
      * split; [split; [done|] | ]; intros (r0 & [= <-] & He); congruence.
    + rewrite (run_add_step_absent env st i Hget).
      split; [split; [done|] | ]; by intros (r0 & ? & _).
  - destruct (RecipeStore.getById st i) as [r|] eqn:Hget.
    2:{ rewrite (run_remove_step_absent env st i Hget).
        split; [split; [done|] | ]; by intros (r0 & ? & _). }
    destruct (decide (steps r = [])) as [Hnil|Hsteps].
    { rewrite (run_remove_step_no_steps env st i r Hget arg Hnil).
      split; [split; [done|] | ]; intros (r0 & [= <-] & ? & _); done. }
    destruct (stepIndex_of arg) as [x|] eqn:Harg.
    { pose proof (remove_step_explicit_outcome env st i r Hget arg x Harg) as Hok.
      rewrite Hok.
      split; [split; [done|] | ]; intros (r0 & _ & _ & ? & _); done. }
    rewrite (run_remove_step_prompt env st i r Hget arg Hsteps Harg).
    unfold remove_step_prompted.
    destruct (Model.removeStep r _) as [e0|r'] eqn:Hrm; cbn [outcome final trace].
    + split; [split|].
      * intros [= ->]. by exists r.
      * intros (r0 & [= <-] & _ & _ & He). congruence.
      * intros _. split; [done|]. apply Forall_app. split; [|by repeat constructor].
        unfold step_listing. apply Forall_cons. split; [done|].
        apply Forall_forall. intros ev Hev.
        by apply elem_of_lookup_imap in Hev as (k & step & -> & _).
    + split; [split; [done|] | ]; intros (r0 & [= <-] & _ & _ & He); congruence.
  - destruct (RecipeStore.getById st i) as [r|] eqn:Hget.
    + rewrite (run_delete_found env st i r Hget).
      by destruct (confirmAnswer _ _).
    + by rewrite (run_delete_absent env st i Hget).
  - by rewrite run_cmd_quick.
  - rewrite run_reset_data. destruct (confirmAnswer _ _); [|done].
    by destruct (shell env reset_command st) as [[message|] st'].
Qed.

Lemma model_errors_escape_handlers_witness :
  final (dispatch CmdCreate (mkEnv reluctant quiet_shell) [tea]) = [tea] ∧
  Forall (λ ev, is_message ev = false)
         (trace (dispatch CmdCreate (mkEnv reluctant quiet_shell) [tea])).
Proof.
  apply (model_errors_escape_handlers CmdCreate (mkEnv reluctant quiet_shell) [tea]
           ValidationError).
  reflexivity.
Defined.

(** Answers that validated prompts do not return show the missing catch:
    were [promptForRecipeInfo] to resolve to an empty name, the
    [ValidationError] of [createRecipe] would leave the handler. *)
Example create_empty_name_uncaught :
  dispatch CmdCreate (mkEnv reluctant quiet_shell) [tea]
  = mkRun [AskRecipeInfo (mkRecipeInfo EmptyString (JInt 5) (JInt 1))] [tea]
          (inl ValidationError).
Proof. reflexivity. Qed.

(** The other prompts, were they to resolve to invalid answers. *)
Example add_step_empty_instruction_uncaught :
  dispatch (CmdAddStep (JInt 1)) (mkEnv reluctant quiet_shell) [tea]
  = mkRun [AskStep EmptyString] [tea] (inl ValidationError).
Proof. reflexivity. Qed.

Example remove_step_prompted_out_of_range_uncaught :
  dispatch (CmdRemoveStep (JInt 1) None) (mkEnv reluctant quiet_shell) [tea]
  = mkRun (step_listing tea ++ [AskStepIndex (JInt 1) (JInt (-1))]) [tea]
          (inl IndexError).
Proof. reflexivity. Qed.


(** ** Validated answers *)

Section validated_answers.
Implicit Types (r : Recipe).





End validated_answers.




(** * Further properties of the handlers *)

(** ** The collection after an update *)

Section persisted_facts.
Implicit Types (st : Store) (r : Recipe) (i : jsnum).

Lemma ids_persisted st r : RecipeStore.ids (persisted st r) = RecipeStore.ids st.
Proof.
  unfold persisted, RecipeStore.ids. rewrite <- list_fmap_compose.
  apply list_fmap_ext. intros _ x _. simpl.
  destruct (id x =? id r) eqn:Hx; [|done]. by apply Z.eqb_eq in Hx.
Qed.

Lemma getById_persisted st i r r' :
  RecipeStore.getById st i = Some r → id r' = id r →
  RecipeStore.getById (persisted st r') i = Some r'.
Proof.
  intros Hget Hid. apply getById_Some in Hget as Hi. destruct Hi as [_ ->].
  revert Hget. simpl. rewrite <- Hid. unfold persisted.
  induction st as [|x st IH]; simpl; [done|].
  destruct (id x =? id r') eqn:Hx.
  - intros _. by rewrite Z.eqb_refl.
  - intros Hfind. rewrite Hx. by apply IH.
Qed.

Lemma persisted_twice st r1 r2 :
  id r1 = id r2 → persisted (persisted st r1) r2 = persisted st r2.
Proof.
  intros Hid. unfold persisted. rewrite <- list_fmap_compose.
  apply list_fmap_ext. intros _ x _. simpl.
  destruct (id x =? id r1) eqn:Hx; [|done].
  rewrite Hid in *. by rewrite Z.eqb_refl, Hx.
Qed.

Lemma fmap_fixed {A} (f : A → A) (l : list A) :
  (∀ y, y ∈ l → f y = y) → f <$> l = l.
Proof.
  induction l as [|x l IH]; intros Hfix; [done|].
  rewrite fmap_cons, Hfix by apply list_elem_of_here.
  f_equal. apply IH. intros y Hy. by apply Hfix, list_elem_of_further.
Qed.

(** With distinct ids, writing back the stored record changes nothing. *)
Lemma persisted_stored st i r :
  NoDup (RecipeStore.ids st) → RecipeStore.getById st i = Some r →
  persisted st r = st.
Proof.
  intros Hnd Hget. apply getById_Some in Hget as [Hin _].
  unfold persisted. induction st as [|x st IH]; [done|].
  unfold RecipeStore.ids in Hnd. rewrite fmap_cons in Hnd.
  apply NoDup_cons in Hnd as [Hx Hnd]. rewrite fmap_cons.
  apply elem_of_cons in Hin as [->|Hin].
  - rewrite Z.eqb_refl. f_equal.
    apply fmap_fixed. intros y Hy.
    destruct (id y =? id x) eqn:Hyx; [|done]. apply Z.eqb_eq in Hyx.
    exfalso. apply Hx. rewrite <- Hyx. by apply list_elem_of_fmap_2.
  - destruct (id x =? id r) eqn:Hxr.
    + apply Z.eqb_eq in Hxr. exfalso. apply Hx. rewrite Hxr.
      by apply list_elem_of_fmap_2.
    + f_equal. by apply IH.
Qed.

End persisted_facts.

(** ** [remove-step] with an explicit index *)

Lemma remove_step_explicit_out_of_range_witness :
  dispatch (CmdRemoveStep (JInt 1) (Some (JInt 5))) (mkEnv agreeable quiet_shell)
           [tea; stew]
  = mkRun [Display Warning (Text (invalid_index_message tea))] [tea; stew] (inr ()).
Proof.
  apply (remove_step_explicit_out_of_range _ _ (JInt 1) tea 5).
  - reflexivity.
  - discriminate.
  - lia.
  - unfold stepCount. simpl. lia.
Defined.

(** X2: [remove-step <id> n] with [1 <= n <= stepCount] removes the n-th
    step (the element at the zero-based index [n - 1]) without asking
    anything, writes the recipe back and reports 'Removed step n': the
    number in the message is the one that was given. *)
Theorem remove_step_explicit_in_range
    (env : Env) (st : Store) (i : jsnum) (r : Recipe) (n : Z) :
  RecipeStore.getById st i = Some r → 1 ≤ n ≤ stepCount r →
  let r' := with_steps r (delete (Z.to_nat (n - 1)) (steps r)) in
  dispatch (CmdRemoveStep i (Some (JInt n))) env st =
    mkRun [StoreUpdate r';
           Display Success
             (Text ("Removed step " +:+ pretty n +:+ " from " +:+ quoted (name r)))]
          (persisted st r') (inr ()) ∧
  RecipeStore.getById (persisted st r') i = Some r' ∧
  stepCount r' = stepCount r - 1.
Proof.
  intros Hfound Hn r'. split_and!.
  - simpl dispatch.
    rewrite (run_remove_step_removed env st i r Hfound _ (n - 1)).
    + cbv zeta. unfold removed_message. simpl js_add. simpl js_show.
      by replace (n - 1 + 1) with n by lia.
    + simpl. replace (n =? 0) with false by (symmetry; apply Z.eqb_neq; lia).
      done.
    + lia.
  - by apply getById_persisted with r.
  - unfold r'. rewrite stepCount_with_steps. unfold stepCount in *.
    rewrite length_delete.
    + lia.
    + apply lookup_lt_is_Some. lia.
Qed.

Lemma remove_step_explicit_in_range_witness :
  dispatch (CmdRemoveStep (JInt 1) (Some (JInt 2))) (mkEnv reluctant quiet_shell)
           [tea; stew]
  = mkRun [StoreUpdate (mkRecipe 1 "Tea" 5 1 [] ["boil"]);
           Display Success (Text ("Removed step 2 from " +:+ quoted "Tea"))]
          [mkRecipe 1 "Tea" 5 1 [] ["boil"]; stew] (inr ()).
Proof.
  pose proof (remove_step_explicit_in_range (mkEnv reluctant quiet_shell)
                [tea; stew] (JInt 1) tea 2) as H.
  cbv zeta in H. destruct H as (Hrun & _).
  - reflexivity.
  - unfold stepCount. simpl. lia.
  - exact Hrun.
Defined.

(** X3: on a stored recipe with steps, [remove-step] asks for a step index
    exactly when the [stepIndex] argument is omitted, 0 or NaN; with any
    other argument no index is asked for. *)
Theorem remove_step_prompts_iff_falsy
    (env : Env) (st : Store) (i : jsnum) (r : Recipe) (arg : option jsnum) :
  RecipeStore.getById st i = Some r → steps r ≠ [] →
  (∃ maxIndex answer,
     AskStepIndex maxIndex answer ∈ trace (dispatch (CmdRemoveStep i arg) env st))
  ↔ arg = None ∨ arg = Some (JInt 0) ∨ arg = Some JNaN.
Proof.
  intros Hfound Hsteps. simpl dispatch.
  destruct (stepIndex_of arg) as [x|] eqn:Harg.
  - destruct (stepIndex_of_inv arg x Harg) as (n & -> & Hn & ->).
    split.
    + intros (m & a & Hin). exfalso.
      destruct (decide (0 ≤ n - 1 < stepCount r)) as [Hin'|Hout].
      * rewrite (run_remove_step_removed env st i r Hfound _ (n - 1) Harg Hin') in Hin.
        cbn [trace] in Hin.
        repeat (apply elem_of_cons in Hin as [Hin|Hin]; [done|]).
        by apply elem_of_nil in Hin.
      * rewrite (run_remove_step_rejected env st i r Hfound _ (n - 1) Hsteps Harg Hout)
          in Hin.
        cbn [trace] in Hin.
        repeat (apply elem_of_cons in Hin as [Hin|Hin]; [done|]).
        by apply elem_of_nil in Hin.
    + intros [Hnone|[[= Hz]|Hnan]]; [done | done | done].
  - rewrite (run_remove_step_prompt env st i r Hfound arg Hsteps Harg).
    split.
    + intros _. destruct arg as [[n|]|]; [|by right; right | by left].
      simpl in Harg. destruct (n =? 0) eqn:Hn; [|done].
      apply Z.eqb_eq in Hn. subst n. by right; left.
    + intros _. unfold remove_step_prompted.
      exists (JInt (stepCount r - 1)),
             (stepIndexAnswer (user env) (JInt (stepCount r - 1))).
      destruct (Model.removeStep r _); cbn [trace].
      * apply elem_of_app. right. apply list_elem_of_here.
      * rewrite <- app_assoc. apply elem_of_app. right. apply list_elem_of_here.
Qed.

Lemma remove_step_prompts_iff_falsy_witness :
  ∃ maxIndex answer,
    AskStepIndex maxIndex answer
    ∈ trace (dispatch (CmdRemoveStep (JInt 1) (Some JNaN))
               (mkEnv agreeable quiet_shell) [tea; stew]).
Proof.
  apply (remove_step_prompts_iff_falsy (mkEnv agreeable quiet_shell) [tea; stew]
           (JInt 1) tea (Some JNaN)).
  - reflexivity.
  - discriminate.
  - right. right. reflexivity.
Defined.

(** ** [quick] and the other read-only commands *)

(** X4: for a threshold [m] and stored cooking times that are safe
    integers (which are printed with all their digits), [quick m] shows the
    warning 'No quick recipes found under m minutes' exactly when every
    stored recipe cooks longer than [m]; otherwise it prints a header with
    the number of recipes found and then one line 'name - time minutes' for
    each stored recipe within [m], and for no other recipe. *)
Theorem quick_warns_iff_none (env : Env) (st : Store) (m : Z) :
  safe_integer m = true →
  Forall (λ r, safe_integer (cookingTime r) = true) st →
  let run := dispatch (CmdQuick (Some (JInt m))) env st in
  let line := λ r, ConsoleLog None
                     (name r +:+ " - " +:+ pretty (cookingTime r) +:+ " minutes") in
  (Forall (λ r, m < cookingTime r) st ↔
   trace run =
     [Display Warning (Text ("No quick recipes found under " +:+ pretty m +:+ " minutes"))]) ∧
  (¬ Forall (λ r, m < cookingTime r) st →
   trace run =
     ConsoleLog (Some Green)
       ("Found " +:+ pretty (Z.of_nat (length (quickRecipes st (JInt m))))
          +:+ " quick recipes under " +:+ pretty m +:+ " minutes:")
     :: (line <$> quickRecipes st (JInt m))) ∧
  (∀ r, r ∈ quickRecipes st (JInt m) ↔ r ∈ st ∧ cookingTime r ≤ m).
Proof.
  intros _ _. cbv zeta. simpl dispatch. rewrite run_cmd_quick. cbn [trace].
  change (default quick_default (Some (JInt m))) with (JInt m).
  assert (Hnone : Forall (λ r, m < cookingTime r) st ↔ quickRecipes st (JInt m) = []).
  { rewrite Forall_forall. split.
    - intros Hall. destruct (quickRecipes st (JInt m)) as [|r l] eqn:Hq; [done|].
      assert (Hr : r ∈ quickRecipes st (JInt m)) by (rewrite Hq; apply list_elem_of_here).
      apply elem_of_quickRecipes in Hr as [Hin Hle]. specialize (Hall r Hin). lia.
    - intros Hq r Hin. destruct (decide (cookingTime r ≤ m)) as [Hle|]; [|lia].
      assert (Hr : r ∈ quickRecipes st (JInt m)) by (by apply elem_of_quickRecipes).
      rewrite Hq in Hr. by apply elem_of_nil in Hr. }
  unfold quick_report. simpl js_show. split_and!.
  - rewrite Hnone. destruct (quickRecipes st (JInt m)); [done|].
    split; discriminate.
  - rewrite Hnone. by destruct (quickRecipes st (JInt m)).
  - intros r. apply elem_of_quickRecipes.
Qed.

Lemma quick_warns_iff_none_witness :
  trace (dispatch (CmdQuick (Some (JInt 3))) (mkEnv agreeable quiet_shell) [tea; stew])
  = [Display Warning (Text ("No quick recipes found under " +:+ pretty 3 +:+ " minutes"))].
Proof.
  apply (quick_warns_iff_none (mkEnv agreeable quiet_shell) [tea; stew] 3).
  - reflexivity.
  - apply Forall_cons. split; [reflexivity|].
    apply Forall_cons. split; [reflexivity|]. apply Forall_nil_2.
  - apply Forall_cons. split; [simpl; lia|].
    apply Forall_cons. split; [simpl; lia|]. apply Forall_nil_2.
Defined.

Lemma quick_report_shows_only (st : Store) (t : jsnum) :
  Forall (λ e, is_prompt e = false ∧ is_store_op e = false ∧ is_exec e = false)
         (quick_report st t).
Proof.
  unfold quick_report. destruct (quickRecipes st t) as [|r l].
  - by repeat constructor.
  - apply Forall_cons. split; [done|].
    apply Forall_fmap, Forall_forall. by intros x _.
Qed.

(** X5: [list], [view], [format] and [quick] never change the collection,
    never ask the user anything, never invoke a store operation or a shell
    command, and never end with an uncaught error, whatever their arguments
    and whatever is stored. *)
Theorem read_only_commands_change_nothing (c : Command) (env : Env) (st : Store) :
  read_only c = true →
  final (dispatch c env st) = st ∧
  outcome (dispatch c env st) = inr () ∧
  Forall (λ e, is_prompt e = false ∧ is_store_op e = false ∧ is_exec e = false)
         (trace (dispatch c env st)).
Proof.
  destruct c as [|i|i| |i|i|i arg|i|time|]; try discriminate; intros _;
    simpl dispatch.
  - rewrite run_list. by repeat constructor.
  - destruct (RecipeStore.getById st i) as [r|] eqn:Hget.
    + rewrite (run_view_found env st i r Hget). by repeat constructor.
    + rewrite (run_view_absent env st i Hget). by repeat constructor.
  - destruct (RecipeStore.getById st i) as [r|] eqn:Hget.
    + rewrite (run_format_found env st i r Hget). by repeat constructor.
    + rewrite (run_format_absent env st i Hget). by repeat constructor.
  - rewrite run_cmd_quick. cbn [final outcome trace].
    split_and!; [done | done | apply quick_report_shows_only].
Qed.

Lemma read_only_commands_change_nothing_witness :
  final (dispatch (CmdView (JInt 2)) (mkEnv agreeable failing_shell) [tea; stew])
  = [tea; stew].
Proof.
  apply (read_only_commands_change_nothing (CmdView (JInt 2))
           (mkEnv agreeable failing_shell) [tea; stew]).
  reflexivity.
Defined.

(** ** Commands that write, and the lookups that follow them *)

(** X6: when [createRecipe] accepts the answers, [create] asks once, stores
    the new recipe under an id that no stored recipe has, at the end of the
    collection, and then reports success with the recipe's name; the new
    recipe is found under its id and every stored recipe is found as
    before. *)
Theorem create_appends_one (env : Env) (st : Store) (r : Recipe) :
  let info := recipeInfoAnswer (user env) in
  Model.createRecipe (info_name info) (info_cookingTime info) (info_servings info)
    = inr r →
  let r' := with_id r (RecipeStore.nextId st) in
  dispatch CmdCreate env st =
    mkRun [AskRecipeInfo info; StoreCreate r';
           Display Success
             (Text ("Recipe " +:+ quoted (name r) +:+ " created successfully!"))]
          (st ++ [r']) (inr ()) ∧
  (∀ x, x ∈ st → id x ≠ id r') ∧
  RecipeStore.getById (st ++ [r']) (JInt (id r')) = Some r' ∧
  (∀ z, z ∈ RecipeStore.ids st →
        RecipeStore.getById (st ++ [r']) (JInt z) = RecipeStore.getById st (JInt z)).
Proof.
  intros info Hcreate r'. pose proof (nextId_fresh st) as Hfresh. split_and!.
  - simpl dispatch. rewrite run_create. cbv zeta. fold info. by rewrite Hcreate.
  - intros x Hx Heq. apply Hfresh. unfold r' in Heq. cbn [with_id id] in Heq.
    rewrite <- Heq. unfold RecipeStore.ids. by apply list_elem_of_fmap_2.
  - rewrite getById_snoc. apply getById_None in Hfresh.
    unfold r'. cbn [with_id id]. by rewrite Hfresh, Z.eqb_refl.
  - intros z Hz. rewrite getById_snoc.
    destruct (RecipeStore.getById st (JInt z)) eqn:Hget; [done|].
    by apply getById_None in Hget.
Qed.

Lemma create_appends_one_witness :
  dispatch CmdCreate (mkEnv agreeable quiet_shell) [tea; stew] =
    mkRun [AskRecipeInfo (mkRecipeInfo "Soup" (JInt 20) (JInt 2));
           StoreCreate (mkRecipe 3 "Soup" 20 2 [] []);
           Display Success
             (Text ("Recipe " +:+ quoted "Soup" +:+ " created successfully!"))]
          [tea; stew; mkRecipe 3 "Soup" 20 2 [] []] (inr ()).
Proof.
  pose proof (create_appends_one (mkEnv agreeable quiet_shell) [tea; stew]
                (mkRecipe 0 "Soup" 20 2 [] [])) as H.
  cbv zeta in H. destruct H as (Hrun & _); [reflexivity|]. exact Hrun.
Defined.

(** X7: [add-step] on a stored recipe, with a step text that [addStep]
    accepts, asks once, appends the text as the last step, writes the
    recipe back and reports 'Added step N', where N is the new number of
    steps; afterwards the lookup of the id gives the recipe with the new
    step, and the ids of the collection are as before. *)
Theorem add_step_then_lookup
    (env : Env) (st : Store) (i : jsnum) (r : Recipe) :
  RecipeStore.getById st i = Some r → stepAnswer (user env) ≠ EmptyString →
  let instruction := stepAnswer (user env) in
  let r' := with_steps r (steps r ++ [instruction]) in
  dispatch (CmdAddStep i) env st =
    mkRun [AskStep instruction; StoreUpdate r';
           Display Success
             (Text ("Added step " +:+ pretty (stepCount r + 1) +:+ " to "
                      +:+ quoted (name r)))]
          (persisted st r') (inr ()) ∧
  RecipeStore.getById (persisted st r') i = Some r' ∧
  RecipeStore.ids (persisted st r') = RecipeStore.ids st.
Proof.
  intros Hfound Hne instruction r'. split_and!.
  - simpl dispatch. rewrite (run_add_step_found env st i r Hfound). cbv zeta.
    rewrite (addStep_ok r _ Hne). fold instruction. fold r'.
    replace (stepCount r') with (stepCount r + 1); [done|].
    unfold r'. rewrite stepCount_with_steps, length_app. unfold stepCount.
    simpl. lia.
  - by apply getById_persisted with r.
  - apply ids_persisted.
Qed.

Lemma add_step_then_lookup_witness :
  dispatch (CmdAddStep (JInt 1)) (mkEnv agreeable quiet_shell) [tea; stew] =
    mkRun [AskStep "stir";
           StoreUpdate (mkRecipe 1 "Tea" 5 1 [] ["boil"; "steep"; "stir"]);
           Display Success (Text ("Added step 3 to " +:+ quoted "Tea"))]
          [mkRecipe 1 "Tea" 5 1 [] ["boil"; "steep"; "stir"]; stew] (inr ()).
Proof.
  pose proof (add_step_then_lookup (mkEnv agreeable quiet_shell) [tea; stew]
                (JInt 1) tea) as H.
  cbv zeta in H. destruct H as (Hrun & _); [reflexivity | discriminate |].
  exact Hrun.
Defined.

(** X8: [add-ingredient] on a stored recipe, with a name and an amount that
    [addIngredient] accepts, asks once, appends the ingredient after the
    existing ones, writes the recipe back and reports 'Added <name> to
    "<recipe>"'; afterwards the lookup of the id gives the recipe with the
    new ingredient, and the ids of the collection are as before. *)
Theorem add_ingredient_then_lookup
    (env : Env) (st : Store) (i : jsnum) (r : Recipe) (a : Z) :
  RecipeStore.getById st i = Some r →
  iinfo_name (ingredientAnswer (user env)) ≠ EmptyString →
  iinfo_amount (ingredientAnswer (user env)) = JInt a →
  let info := ingredientAnswer (user env) in
  let r' := with_ingredients r
              (ingredients r ++ [mkIngredient (iinfo_name info) a (iinfo_unit info)]) in
  dispatch (CmdAddIngredient i) env st =
    mkRun [AskIngredient info; StoreUpdate r';
           Display Success
             (Text ("Added " +:+ iinfo_name info +:+ " to " +:+ quoted (name r)))]
          (persisted st r') (inr ()) ∧
  RecipeStore.getById (persisted st r') i = Some r' ∧
  RecipeStore.ids (persisted st r') = RecipeStore.ids st.
Proof.
  intros Hfound Hne Hamount info r'. split_and!.
  - simpl dispatch. rewrite (run_add_ingredient_found env st i r Hfound). cbv zeta.
    fold info. unfold Model.addIngredient. fold info in Hamount, Hne.
    rewrite Hamount. by rewrite bool_decide_eq_false_2.
  - by apply getById_persisted with r.
  - apply ids_persisted.
Qed.

Lemma add_ingredient_then_lookup_witness :
  RecipeStore.getById
    (final (dispatch (CmdAddIngredient (JInt 2)) (mkEnv agreeable quiet_shell)
              [tea; stew]))
    (JInt 2)
  = Some (mkRecipe 2 "Stew" 45 4 [mkIngredient "Water" 1 "cup"] []).
Proof.
  pose proof (add_ingredient_then_lookup (mkEnv agreeable quiet_shell) [tea; stew]
                (JInt 2) stew 1) as H.
  cbv zeta in H. destruct H as (Hrun & Hget & _);
    [reflexivity | discriminate | reflexivity |].
  rewrite Hrun. exact Hget.
Defined.

(** X9: a confirmed [delete] of a stored recipe removes every record with
    that id and nothing else, keeping the order of the rest; afterwards the
    id is not found: [view] and a second [delete] of the same id only show
    the not-found warning, and the second [delete] does not ask again. *)
Theorem delete_then_lookup (env : Env) (st : Store) (i : jsnum) (r : Recipe) :
  RecipeStore.getById st i = Some r →
  confirmAnswer (user env) (delete_question r) = true →
  let st' := final (dispatch (CmdDelete i) env st) in
  (∀ x, x ∈ st' ↔ x ∈ st ∧ JInt (id x) ≠ i) ∧
  st' `sublist_of` st ∧
  RecipeStore.getById st' i = None ∧
  dispatch (CmdView i) env st' = mkRun [Display Warning (NotFoundText i)] st' (inr ()) ∧
  dispatch (CmdDelete i) env st' = mkRun [Display Warning (NotFoundText i)] st' (inr ()).
Proof.
  intros Hfound Hyes. cbv zeta. simpl dispatch.
  rewrite (run_delete_found env st i r Hfound), Hyes. cbn [final].
  unfold RecipeStore.delete. rewrite Hfound. cbn [fst].
  assert (Hgone : RecipeStore.getById (filter (λ x, JInt (id x) ≠ i) st) i = None).
  { apply getById_absent. intros x Hx. by apply list_elem_of_filter in Hx as [Hne _]. }
  split_and!.
  - intros x. rewrite list_elem_of_filter. tauto.
  - apply sublist_filter.
  - done.
  - by apply run_view_absent.
  - by apply run_delete_absent.
Qed.

Lemma delete_then_lookup_witness :
  final (dispatch (CmdDelete (JInt 1)) (mkEnv agreeable quiet_shell) [tea; stew])
    `sublist_of` [tea; stew].
Proof.
  pose proof (delete_then_lookup (mkEnv agreeable quiet_shell) [tea; stew]
                (JInt 1) tea) as H.
  cbv zeta in H. destruct H as (_ & Hsub & _); [reflexivity | reflexivity |].
  exact Hsub.
Defined.

(** X10: in a collection with distinct ids, [add-step <id>] followed by
    [remove-step <id> N], with the step number N that [add-step] reported
    ('Added step N'), gives back the collection as it was. *)
Theorem add_step_then_remove_step_restores
    (env env' : Env) (st : Store) (i : jsnum) (r : Recipe) :
  NoDup (RecipeStore.ids st) →
  RecipeStore.getById st i = Some r → stepAnswer (user env) ≠ EmptyString →
  let added := dispatch (CmdAddStep i) env st in
  let N := stepCount r + 1 in
  last (trace added) =
    Some (Display Success
            (Text ("Added step " +:+ pretty N +:+ " to " +:+ quoted (name r)))) ∧
  final (dispatch (CmdRemoveStep i (Some (JInt N))) env' (final added)) = st.
Proof.
  intros Hnd Hfound Hne. cbv zeta. simpl dispatch.
  rewrite (run_add_step_found env st i r Hfound). cbv zeta.
  rewrite (addStep_ok r _ Hne).
  set (r1 := with_steps r (steps r ++ [stepAnswer (user env)])).
  assert (Hcount : stepCount r1 = stepCount r + 1).
  { unfold r1. rewrite stepCount_with_steps, length_app. unfold stepCount.
    simpl. lia. }
  cbn [trace final]. split; [by rewrite Hcount|].
  assert (Hget : RecipeStore.getById (persisted st r1) i = Some r1)
    by (by apply getById_persisted with r).
  rewrite (run_remove_step_removed env' (persisted st r1) i r1 Hget _ (stepCount r)).
  - cbv zeta. cbn [final].
    assert (Hback : with_steps r1 (delete (Z.to_nat (stepCount r)) (steps r1)) = r).
    { unfold r1. rewrite with_steps_twice. cbn [steps with_steps]. unfold stepCount.
      by rewrite Nat2Z.id, delete_middle, app_nil_r, with_steps_same. }
    rewrite Hback, persisted_twice by done. by apply persisted_stored with i.
  - simpl. replace (stepCount r + 1 =? 0) with false
      by (symmetry; apply Z.eqb_neq; unfold stepCount; lia).
    simpl. do 2 f_equal. lia.
  - unfold stepCount in *. lia.
Qed.

Lemma add_step_then_remove_step_restores_witness :
  final (dispatch (CmdRemoveStep (JInt 1) (Some (JInt 3))) (mkEnv reluctant quiet_shell)
           (final (dispatch (CmdAddStep (JInt 1)) (mkEnv agreeable quiet_shell)
                     [tea; stew])))
  = [tea; stew].
Proof.
  pose proof (add_step_then_remove_step_restores (mkEnv agreeable quiet_shell)
                (mkEnv reluctant quiet_shell) [tea; stew] (JInt 1) tea) as H.
  cbv zeta in H. destruct H as (_ & Hback).
  - apply (bool_decide_unpack _). vm_compute. exact I.
  - reflexivity.
  - discriminate.
  - exact Hback.
Defined.

(** ** Every command *)

Lemma count_app (p : Event → bool) (l1 l2 : list Event) :
  count p (l1 ++ l2) = (count p l1 + count p l2)%nat.
Proof. unfold count. by rewrite filter_app, length_app. Qed.

Lemma count_none (p : Event → bool) (l : list Event) :
  Forall (λ e, p e = false) l → count p l = 0%nat.
Proof.
  unfold count. induction 1 as [|e l He _ IH]; [done|].
  rewrite filter_cons_False; [done | by rewrite He].
Qed.

Lemma step_listing_shows_only (r : Recipe) :
  Forall (λ e, is_prompt e = false ∧ is_store_op e = false ∧ is_exec e = false)
         (step_listing r).
Proof.
  unfold step_listing. apply Forall_cons. split; [done|].
  apply Forall_forall. intros e He.
  by apply elem_of_lookup_imap in He as (k & step & -> & _).
Qed.

Lemma count_shown (p : Event → bool) (l : list Event) :
  (p = is_prompt ∨ p = is_store_op ∨ p = is_exec) →
  Forall (λ e, is_prompt e = false ∧ is_store_op e = false ∧ is_exec e = false) l →
  count p l = 0%nat.
Proof.
  intros Hp Hall. apply count_none. eapply Forall_impl; [exact Hall|].
  intros e (H1 & H2 & H3). by destruct Hp as [-> | [-> | ->] ].
Qed.

(** The runs of a command, case by case. *)
Local Ltac handler_cases c env st :=
  let r := fresh "r" in
  let Hget := fresh "Hget" in
  destruct c as [|i|i| |i|i|i arg|i|time|]; simpl dispatch;
  [ rewrite run_list
  | destruct (RecipeStore.getById st i) as [r|] eqn:Hget;
    [ rewrite (run_view_found env st i r Hget)
    | rewrite (run_view_absent env st i Hget) ]
  | destruct (RecipeStore.getById st i) as [r|] eqn:Hget;
    [ rewrite (run_format_found env st i r Hget)
    | rewrite (run_format_absent env st i Hget) ]
  | rewrite run_create; cbv zeta; destruct (Model.createRecipe _ _ _)
  | destruct (RecipeStore.getById st i) as [r|] eqn:Hget;
    [ rewrite (run_add_ingredient_found env st i r Hget); cbv zeta;
      destruct (Model.addIngredient _ _ _ _)
    | rewrite (run_add_ingredient_absent env st i Hget) ]
  | destruct (RecipeStore.getById st i) as [r|] eqn:Hget;
    [ rewrite (run_add_step_found env st i r Hget); cbv zeta;
      destruct (Model.addStep _ _)
    | rewrite (run_add_step_absent env st i Hget) ]
  | destruct (RecipeStore.getById st i) as [r|] eqn:Hget;
    [ let Hnil := fresh "Hnil" in
      let Harg := fresh "Harg" in
      destruct (decide (steps r = [])) as [Hnil|Hnil];
      [ rewrite (run_remove_step_no_steps env st i r Hget arg Hnil)
      | destruct (stepIndex_of arg) as [x|] eqn:Harg;
        [ let n := fresh "n" in
          let Hin := fresh "Hin" in
          destruct (stepIndex_of_inv arg _ Harg) as (n & _ & _ & ->);
          destruct (decide (0 ≤ n - 1 < stepCount r)) as [Hin|Hin];
          [ rewrite (run_remove_step_removed env st i r Hget arg (n - 1) Harg Hin);
            cbv zeta
          | rewrite (run_remove_step_rejected env st i r Hget arg (n - 1) Hnil Harg Hin) ]
        | rewrite (run_remove_step_prompt env st i r Hget arg Hnil Harg);
          unfold remove_step_prompted; cbv zeta;
          destruct (Model.removeStep r _) ] ]
    | rewrite (run_remove_step_absent env st i Hget) ]
  | destruct (RecipeStore.getById st i) as [r|] eqn:Hget;
    [ rewrite (run_delete_found env st i r Hget); destruct (confirmAnswer _ _)
    | rewrite (run_delete_absent env st i Hget) ]
  | rewrite run_cmd_quick
  | rewrite run_reset_data; destruct (confirmAnswer _ _);
    [ destruct (shell env reset_command st) as [[message|] st'] | ] ];
  cbn [trace final outcome].

(** X11: every command other than [reset-data] keeps the ids of the
    collection pairwise distinct, whatever the user answers and whether or
    not the run ends with an error. *)
Theorem commands_keep_ids_distinct (c : Command) (env : Env) (st : Store) :
  c ≠ CmdResetData → NoDup (RecipeStore.ids st) →
  NoDup (RecipeStore.ids (final (dispatch c env st))).
Proof.
  intros Hc Hnd. handler_cases c env st; try done.
  - rewrite ids_app. apply NoDup_app. split_and!; [done | | apply NoDup_singleton].
    intros z Hz Hz'. apply list_elem_of_singleton in Hz'. subst z.
    by apply (nextId_fresh st).
  - by rewrite ids_persisted.
  - by rewrite ids_persisted.
  - by rewrite ids_persisted.
  - by rewrite ids_persisted.
  - eapply sublist_NoDup; [done | apply delete_ids_sublist].
Qed.

Lemma commands_keep_ids_distinct_witness :
  NoDup (RecipeStore.ids
           (final (dispatch CmdCreate (mkEnv agreeable quiet_shell) [tea; stew]))).
Proof.
  apply (commands_keep_ids_distinct CmdCreate (mkEnv agreeable quiet_shell) [tea; stew]).
  - discriminate.
  - apply (bool_decide_unpack _). vm_compute. exact I.
Defined.

(** X12: a run of any command asks the user at most once, invokes at most
    one store operation and at most one shell command. *)
Theorem at_most_one_prompt_and_store_operation
    (c : Command) (env : Env) (st : Store) :
  (count is_prompt (trace (dispatch c env st)) ≤ 1)%nat ∧
  (count is_store_op (trace (dispatch c env st)) ≤ 1)%nat ∧
  (count is_exec (trace (dispatch c env st)) ≤ 1)%nat.
Proof.
  handler_cases c env st;
    repeat rewrite count_app;
    repeat rewrite (count_shown _ (step_listing _)) by
      (eauto using step_listing_shows_only);
    repeat rewrite (count_shown _ (quick_report _ _)) by
      (eauto using quick_report_shows_only);
    by (split_and!; cbv; lia).
Qed.

(** X13: the listing that [remove-step] prints numbers the steps from 1,
    and the number it shows for a step is the one that removes it: when the
    listing shows 'n. step', [remove-step <id> n] removes exactly that
    step and keeps the others in order. *)
Theorem listing_number_removes_that_step
    (env env' : Env) (st : Store) (i : jsnum) (r : Recipe) (k : nat) (step : string) :
  RecipeStore.getById st i = Some r → steps r !! k = Some step →
  let n := Z.of_nat k + 1 in
  ConsoleLog None (pretty n +:+ ". " +:+ step)
    ∈ trace (dispatch (CmdRemoveStep i None) env st) ∧
  ∃ r', RecipeStore.getById
          (final (dispatch (CmdRemoveStep i (Some (JInt n))) env' st)) i = Some r' ∧
        steps r' = delete k (steps r) ∧
        length (steps r') = pred (length (steps r)).
Proof.
  intros Hfound Hk n.
  assert (Hsteps : steps r ≠ []) by (by destruct (steps r)).
  pose proof (lookup_lt_Some _ _ _ Hk) as Hlt.
  split.
  - simpl dispatch.
    rewrite (run_remove_step_prompt env st i r Hfound None Hsteps eq_refl).
    unfold remove_step_prompted.
    assert (Hline : ConsoleLog None (pretty n +:+ ". " +:+ step) ∈ step_listing r).
    { unfold step_listing. apply list_elem_of_further.
      by apply (elem_of_lookup_imap_2
                  (λ k step, ConsoleLog None (pretty (Z.of_nat k + 1) +:+ ". " +:+ step))). }
    destruct (Model.removeStep r _); cbn [trace];
      repeat (apply elem_of_app; left); done.
  - exists (with_steps r (delete k (steps r))). simpl dispatch.
    rewrite (run_remove_step_removed env' st i r Hfound _ (n - 1)).
    + cbv zeta. cbn [final]. unfold n.
      replace (Z.to_nat (Z.of_nat k + 1 - 1)) with k by lia.
      split_and!.
      * by apply getById_persisted with r.
      * done.
      * cbn [steps with_steps]. rewrite length_delete by eauto. lia.
    + simpl. replace (n =? 0) with false by (symmetry; apply Z.eqb_neq; lia).
      done.
    + unfold stepCount. lia.
Qed.

Lemma listing_number_removes_that_step_witness :
  ConsoleLog None (pretty 2 +:+ ". " +:+ "steep")
    ∈ trace (dispatch (CmdRemoveStep (JInt 1) None) (mkEnv agreeable quiet_shell)
               [tea; stew]).
Proof.
  pose proof (listing_number_removes_that_step (mkEnv agreeable quiet_shell)
                (mkEnv agreeable quiet_shell) [tea; stew] (JInt 1) tea 1 "steep")
    as H.
  cbv zeta in H. destruct H as (Hshown & _); [reflexivity | reflexivity |].
  exact Hshown.
Defined.
